(** * TrueSight AI: the asynchronous verification pipeline

    A shallow embedding of the backend's analysis pipeline:
    - [Errors]: [CustomError] (middleware/errorHandler.ts) and the values
      that can be thrown inside the AI Engine client;
    - [Gateway]: the circuit breaker and the two guarded calls of
      services/aiEngineClient.ts;
    - [Store]: the Analysis document and the create and update operations of
      services/analysisService.ts over models/Analysis.ts;
    - [Processor]: the per-submission task of services/analysisProcessor.ts;
    - [Aggregator] and [Timeline]: the scoring functions of the AI Engine.

    JavaScript numbers that hold counters and millisecond clocks are modelled
    as [Z]; scores and confidences are exact rationals ([Q]). The remote
    engine, the clock and the database are the environment: every call takes
    what the environment answered as an argument, so each theorem quantifies
    over all answers. *)

From Stdlib Require Import ZArith QArith Qround Lia Lqa List.
From stdpp Require Import base strings gmap.

Open Scope Z_scope.

(** ['image' | 'video'] *)
Inductive ContentType := image | video.

(* ===================================================================== *)
(** ** Errors *)
(* ===================================================================== *)

Module Errors.

(** The body of an HTTP error response of the AI Engine ([error.response.data],
    typed [any] in the source): only its [message] is ever read. A body
    that is not an object, or has no [message], reads as [None]. *)
Record ResponseData := mkResponseData { data_message : option string }.

Record Response := mkResponse {
  resp_status : Z;
  resp_data : option ResponseData   (* [None]: null or undefined body *)
}.

Record AxiosError := mkAxiosError {
  ax_code : option string;
  ax_response : option Response;
  ax_message : string
}.

(** The [details] argument of [CustomError]: one constructor per shape the
    pipeline builds. *)
Inductive Details :=
| NoDetails
| RetryAfter (seconds : Z)             (* { retryAfter } *)
| ResponseBody (d : option ResponseData) (* the response body itself *)
| DetailsOf (m : option string)        (* { details: data?.message } *)
| ErrorOf (m : string)                 (* { error: error.message } *)
| AnalysisIdOf (id : string).          (* { analysisId: id } *)

Record CustomError := mkCustomError {
  message : string;
  statusCode : Z;
  code : string;
  details : Details
}.

(** [a || b] on a possibly missing string: the empty string is falsy. *)
Definition or_string (a : option string) (b : string) : string :=
  match a with
  | Some s => if String.eqb s "" then b else s
  | None => b
  end.

(** [data?.message] *)
Definition opt_message (d : option ResponseData) : option string :=
  match d with
  | Some d => data_message d
  | None => None
  end.

Definition code_is (e : AxiosError) (c : string) : bool :=
  match ax_code e with
  | Some c' => String.eqb c' c
  | None => false
  end.

(** mapAIEngineError *)
Definition mapAIEngineError (error : AxiosError) : CustomError :=
  if code_is error "ECONNABORTED" || code_is error "ETIMEDOUT" then
    mkCustomError "AI analysis timeout. The content may be too large or complex."
                  408 "ANALYSIS_TIMEOUT" NoDetails
  else if code_is error "ECONNREFUSED" then
    mkCustomError "AI Engine is unavailable" 503 "AI_ENGINE_UNAVAILABLE" NoDetails
  else
    let fallback :=
      mkCustomError "Failed to communicate with AI Engine" 500 "AI_ENGINE_ERROR"
                    (ErrorOf (ax_message error)) in
    match ax_response error with
    | Some r =>
        let status := resp_status r in
        let data := resp_data r in
        if status =? 400 then
          mkCustomError (or_string (opt_message data) "Invalid content for analysis")
                        400 "INVALID_CONTENT" (ResponseBody data)
        else if status =? 413 then
          mkCustomError "Content too large for analysis" 413 "CONTENT_TOO_LARGE"
                        NoDetails
        else if status =? 500 then
          mkCustomError "AI analysis failed" 500 "ANALYSIS_FAILED"
                        (DetailsOf (opt_message data))
        else fallback
    | None => fallback
    end.

End Errors.

(* ===================================================================== *)
(** ** Remote Model Gateway: services/aiEngineClient.ts *)
(* ===================================================================== *)

Module Gateway.
Import Errors.

Inductive BreakerMode := CLOSED | OPEN | HALF_OPEN.

Record CircuitBreakerState := mkBreaker {
  failures : Z;
  lastFailureTime : Z;
  state : BreakerMode
}.

(** The module-level breaker as it is at process start. *)
Definition circuitBreaker : CircuitBreakerState :=
  {| failures := 0; lastFailureTime := 0; state := CLOSED |}.

Definition CIRCUIT_BREAKER_THRESHOLD : Z := 5.
Definition CIRCUIT_BREAKER_TIMEOUT : Z := 60000.
Definition CIRCUIT_BREAKER_RESET_TIMEOUT : Z := 30000.

(** [Math.ceil (x / 1000)] for an integer [x]. *)
Definition ceil_div_1000 (x : Z) : Z := - ((- x) / 1000).

(** checkCircuitBreaker: [inl] is the thrown error (the breaker is then
    untouched), [inr] the breaker after the check. [now] is the reading of
    [Date.now()]. *)
Definition checkCircuitBreaker (now : Z) (cb : CircuitBreakerState)
  : CustomError + CircuitBreakerState :=
  match state cb with
  | OPEN =>
      if now - lastFailureTime cb >? CIRCUIT_BREAKER_TIMEOUT then
        inr {| failures := failures cb;
               lastFailureTime := lastFailureTime cb;
               state := HALF_OPEN |}
      else
        inl (mkCustomError
               "AI Engine is temporarily unavailable. Please try again later."
               503 "AI_ENGINE_UNAVAILABLE"
               (RetryAfter (ceil_div_1000
                  (CIRCUIT_BREAKER_TIMEOUT - (now - lastFailureTime cb)))))
  | _ => inr cb
  end.

(** recordFailure *)
Definition recordFailure (now : Z) (cb : CircuitBreakerState)
  : CircuitBreakerState :=
  let f := failures cb + 1 in
  {| failures := f;
     lastFailureTime := now;
     state := if f >=? CIRCUIT_BREAKER_THRESHOLD then OPEN else state cb |}.

(** recordSuccess *)
Definition recordSuccess (now : Z) (cb : CircuitBreakerState)
  : CircuitBreakerState :=
  match state cb with
  | HALF_OPEN =>
      {| failures := 0; lastFailureTime := lastFailureTime cb; state := CLOSED |}
  | CLOSED =>
      if now - lastFailureTime cb >? CIRCUIT_BREAKER_RESET_TIMEOUT then
        {| failures := 0; lastFailureTime := lastFailureTime cb; state := CLOSED |}
      else cb
  | OPEN => cb
  end.

(** getCircuitBreakerStatus: a copy of the three fields. *)
Definition getCircuitBreakerStatus (cb : CircuitBreakerState)
  : BreakerMode * Z * Z :=
  (state cb, failures cb, lastFailureTime cb).

(** What the environment does once the breaker lets a call through. The
    payload type [R] is the engine's JSON answer. *)
Inductive PostOutcome (R : Type) :=
| FormError                       (* a non-axios exception before the request is sent *)
| Responded (data : R)            (* 2xx: [response.data] *)
| AxiosFailed (e : AxiosError)    (* any axios error: no answer, timeout, non-2xx *)
| PostOtherError.                 (* a non-axios exception out of the request *)
Arguments FormError {R}.
Arguments Responded {R} data.
Arguments AxiosFailed {R} e.
Arguments PostOtherError {R}.

(** One call as the environment sees it: the clock when the breaker is
    checked, the clock when the outcome is recorded, and the outcome. *)
Record Call (R : Type) := mkCall {
  t_check : Z;
  t_done : Z;
  post : PostOutcome R
}.
Arguments mkCall {R} t_check t_done post.
Arguments t_check {R} c.
Arguments t_done {R} c.
Arguments post {R} c.

Record CallResult (R : Type) := mkCallResult {
  breaker_after : CircuitBreakerState;
  outcome : CustomError + R;       (* thrown error, or returned payload *)
  contacted : bool                 (* was [aiEngineClient.post] invoked? *)
}.
Arguments mkCallResult {R} breaker_after outcome contacted.
Arguments breaker_after {R} c.
Arguments outcome {R} c.
Arguments contacted {R} c.

Definition unexpected : CustomError :=
  mkCustomError "Unexpected error during analysis" 500 "ANALYSIS_FAILED" NoDetails.

(** analyzeImage: the whole body sits in one [try]; the [catch] records a
    failure for whatever was thrown, then rethrows a [CustomError] as it is,
    maps an axios error, and wraps anything else. This is one call run
    alone: its check and its recording act on one breaker value. The request
    is awaited between the two, so with other calls in flight the recording
    acts on the breaker as they left it: that is [Interleaving] below. *)
Definition analyzeImage {R} (c : Call R) (cb : CircuitBreakerState)
  : CallResult R :=
  match checkCircuitBreaker (t_check c) cb with
  | inl e =>
      mkCallResult (recordFailure (t_done c) cb) (inl e) false
  | inr cb1 =>
      match post c with
      | FormError =>
          mkCallResult (recordFailure (t_done c) cb1) (inl unexpected) false
      | Responded data =>
          mkCallResult (recordSuccess (t_done c) cb1) (inr data) true
      | AxiosFailed e =>
          mkCallResult (recordFailure (t_done c) cb1) (inl (mapAIEngineError e)) true
      | PostOtherError =>
          mkCallResult (recordFailure (t_done c) cb1) (inl unexpected) true
      end
  end.

(** analyzeVideo: the same shape (other endpoint, doubled timeout, both in
    the environment's hands). *)
Definition analyzeVideo {R} (c : Call R) (cb : CircuitBreakerState)
  : CallResult R :=
  match checkCircuitBreaker (t_check c) cb with
  | inl e =>
      mkCallResult (recordFailure (t_done c) cb) (inl e) false
  | inr cb1 =>
      match post c with
      | FormError =>
          mkCallResult (recordFailure (t_done c) cb1) (inl unexpected) false
      | Responded data =>
          mkCallResult (recordSuccess (t_done c) cb1) (inr data) true
      | AxiosFailed e =>
          mkCallResult (recordFailure (t_done c) cb1) (inl (mapAIEngineError e)) true
      | PostOtherError =>
          mkCallResult (recordFailure (t_done c) cb1) (inl unexpected) true
      end
  end.

Definition analyze {R} (ct : ContentType) : Call R -> CircuitBreakerState -> CallResult R :=
  match ct with
  | image => analyzeImage
  | video => analyzeVideo
  end.

(** Calls made one after the other, each finishing before the next starts. *)
Fixpoint run_calls {R} (ct : ContentType) (cs : list (Call R))
  (cb : CircuitBreakerState) : CircuitBreakerState * list (CallResult R) :=
  match cs with
  | [] => (cb, [])
  | c :: cs' =>
      let r := analyze ct c cb in
      let '(cb', rs) := run_calls ct cs' (breaker_after r) in
      (cb', r :: rs)
  end.

(** The atomic steps on the shared breaker. Calls run concurrently on one
    thread: between the check of one call and its recording, steps of other
    calls may run. *)
Inductive BreakerStep : CircuitBreakerState -> CircuitBreakerState -> Prop :=
| step_check now cb cb' :
    checkCircuitBreaker now cb = inr cb' -> BreakerStep cb cb'
| step_failure now cb : BreakerStep cb (recordFailure now cb)
| step_success now cb : BreakerStep cb (recordSuccess now cb).

Inductive Reachable : CircuitBreakerState -> Prop :=
| reach_init : Reachable circuitBreaker
| reach_step cb cb' : Reachable cb -> BreakerStep cb cb' -> Reachable cb'.

(** The breaker invariant: the counter is never negative, and outside
    CLOSED it has reached the threshold. *)
Definition breaker_inv (cb : CircuitBreakerState) : Prop :=
  0 <= failures cb /\
  (state cb <> CLOSED -> CIRCUIT_BREAKER_THRESHOLD <= failures cb).

(** How the claims classify an axios error: content-level is a 4xx answer. *)
Definition is_timeout_or_refused (e : AxiosError) : bool :=
  code_is e "ECONNABORTED" || code_is e "ETIMEDOUT" || code_is e "ECONNREFUSED".

Definition content_level (e : AxiosError) : bool :=
  negb (is_timeout_or_refused e) &&
  match ax_response e with
  | Some r => (400 <=? resp_status r) && (resp_status r <? 500)
  | None => false
  end.

Definition infra_level (e : AxiosError) : bool := negb (content_level e).

(** A call that does not come back with a payload. *)
Definition fails {R} (p : PostOutcome R) : bool :=
  match p with
  | Responded _ => false
  | _ => true
  end.

(** An infra-level failure of the subsystem. *)
Definition infra_failure {R} (p : PostOutcome R) : bool :=
  match p with
  | AxiosFailed e => infra_level e
  | _ => false
  end.

(** The fail-fast rejection: the breaker's own 503, the subsystem untouched. *)
Definition rejected {R} (r : CallResult R) : Prop :=
  contacted r = false /\
  exists e, outcome r = inl e /\
            statusCode e = 503 /\ code e = "AI_ENGINE_UNAVAILABLE".

(** Calls that each start no later than the cool-down after the failure
    recorded before them; [last] is the time of that failure. *)
Fixpoint within_window {R} (last : Z) (cs : list (Call R)) : Prop :=
  match cs with
  | [] => True
  | c :: cs' =>
      t_check c - last <= CIRCUIT_BREAKER_TIMEOUT /\ within_window (t_done c) cs'
  end.

(** The time of the last recorded failure after the calls [cs]. *)
Fixpoint last_done {R} (last : Z) (cs : list (Call R)) : Z :=
  match cs with
  | [] => last
  | c :: cs' => last_done (t_done c) cs'
  end.

End Gateway.

(* ===================================================================== *)
(** ** Status Store: models/Analysis.ts and services/analysisService.ts *)
(* ===================================================================== *)

Module Store.
Import Errors.

(** The [status] enum of the schema and of [IAnalysis]. *)
Inductive Status := processing | completed | failed.

Definition status_name (s : Status) : string :=
  match s with
  | processing => "processing"
  | completed => "completed"
  | failed => "failed"
  end.

Inductive SourceType := upload | url | screenshot.

(** A JSON value read off the engine's answer, as far as the pipeline looks
    into it. *)
Inductive JsVal :=
| JUndefined
| JNaN
| JNum (q : Q)
| JStr (s : string)
| JObj (repr : string).   (* an object or array, kept as its JSON text *)

(** Truthiness, as [||] tests it. *)
Definition truthy (v : JsVal) : bool :=
  match v with
  | JUndefined | JNaN => false
  | JNum q => negb (Qeq_bool q 0)
  | JStr s => negb (String.eqb s "")
  | JObj _ => true
  end.

Definition js_or (a b : JsVal) : JsVal := if truthy a then a else b.

(** [100 - v] for a number [v]; an operand that is not a number gives NaN
    (string-to-number coercion is not modelled: the engine sends numbers). *)
Definition hundred_minus (v : JsVal) : JsVal :=
  match v with
  | JNum q => JNum (100 - q)
  | _ => JNaN
  end.

(** [AnalysisResult]: a key left out of the object literal is [JUndefined]. *)
Record AnalysisResult := mkAnalysisResult {
  truthScore : JsVal;
  aiGeneratedProbability : JsVal;
  realProbability : JsVal;
  deepfakeDetection : JsVal;
  manipulationHeatmap : JsVal;
  metadata : JsVal;
  predictedSource : JsVal;
  processingTime : JsVal;
  videoTimeline : JsVal
}.

(** [IAnalysis] *)
Record Analysis := mkAnalysis {
  userId : option string;
  contentType : ContentType;
  sourceType : SourceType;
  sourceUrl : option string;
  filePath : string;
  thumbnail : string;
  status : Status;
  result : option AnalysisResult;
  error : option string;
  createdAt : Z;
  completedAt : option Z;
  expiresAt : Z
}.

Record CreateAnalysisParams := mkCreateParams {
  p_userId : option string;
  p_contentType : ContentType;
  p_sourceType : SourceType;
  p_sourceUrl : option string;
  p_filePath : string;
  p_thumbnail : string
}.

Record UpdateAnalysisParams := mkUpdateParams {
  u_status : option Status;
  u_result : option AnalysisResult;
  u_error : option string;
  u_completedAt : option Z
}.

(** What the database does with one operation. [DbError] stands for any
    exception out of mongoose: lost connection, or a schema validator
    rejecting the document ([runValidators]). *)
Inductive DbOutcome := DbOk | DbError (msg : string).

Definition DEFAULT_TTL_DAYS : Z := 30.
Definition MS_PER_DAY : Z := 86400000.

(** createAnalysis. [id] is the [_id] mongoose generates, [now] the clock
    (both [createdAt]'s default and the base of [expiresAt]). [setDate] adds
    thirty calendar days in local time: that is thirty 24-hour days plus
    [shift], the change of the local UTC offset in between (0 unless a
    daylight-saving change falls into the thirty days). *)
Definition createAnalysis (db : DbOutcome) (id : string) (now : Z) (shift : Z)
  (params : CreateAnalysisParams) (docs : gmap string Analysis)
  : CustomError + (Analysis * gmap string Analysis) :=
  match db with
  | DbError m =>
      inl (mkCustomError "Failed to create analysis record" 500 "DATABASE_ERROR"
                         (ErrorOf m))
  | DbOk =>
      let analysis :=
        {| userId := p_userId params;
           contentType := p_contentType params;
           sourceType := p_sourceType params;
           sourceUrl := p_sourceUrl params;
           filePath := p_filePath params;
           thumbnail := p_thumbnail params;
           status := processing;
           result := None;
           error := None;
           createdAt := now;
           completedAt := None;
           expiresAt := now + DEFAULT_TTL_DAYS * MS_PER_DAY + shift |} in
      inr (analysis, <[id := analysis]> docs)
  end.

(** [{ $set: updates }]: only the keys present in [updates] are written. *)
Definition apply_set (u : UpdateAnalysisParams) (a : Analysis) : Analysis :=
  {| userId := userId a;
     contentType := contentType a;
     sourceType := sourceType a;
     sourceUrl := sourceUrl a;
     filePath := filePath a;
     thumbnail := thumbnail a;
     status := match u_status u with Some s => s | None => status a end;
     result := match u_result u with Some r => Some r | None => result a end;
     error := match u_error u with Some e => Some e | None => error a end;
     createdAt := createdAt a;
     completedAt :=
       match u_completedAt u with Some t => Some t | None => completedAt a end;
     expiresAt := expiresAt a |}.

(** updateAnalysis *)
Definition updateAnalysis (db : DbOutcome) (id : string)
  (updates : UpdateAnalysisParams) (docs : gmap string Analysis)
  : CustomError + (Analysis * gmap string Analysis) :=
  match db with
  | DbError m =>
      inl (mkCustomError "Failed to update analysis" 500 "DATABASE_ERROR"
                         (ErrorOf m))
  | DbOk =>
      match docs !! id with
      | None =>
          inl (mkCustomError "Analysis not found" 404 "NOT_FOUND" (AnalysisIdOf id))
      | Some a =>
          let analysis := apply_set updates a in
          inr (analysis, <[id := analysis]> docs)
      end
  end.

(** findAnalysisById *)
Definition findAnalysisById (db : DbOutcome) (id : string)
  (docs : gmap string Analysis) : CustomError + option Analysis :=
  match db with
  | DbError m =>
      inl (mkCustomError "Failed to retrieve analysis" 500 "DATABASE_ERROR"
                         (ErrorOf m))
  | DbOk => inr (docs !! id)
  end.

(** The record invariant of the data model. *)
Definition record_ok (a : Analysis) : Prop :=
  (is_Some (result a) <-> status a = completed) /\
  (is_Some (error a) <-> status a = failed).

End Store.

(* ===================================================================== *)
(** ** Analysis Orchestrator: services/analysisProcessor.ts *)
(* ===================================================================== *)

Module Processor.
Import Errors Gateway Store.

(** The engine's 2xx answer ([response.data], typed [any]): a JSON object,
    of which these keys are read. A missing key is [JUndefined]. *)
Record EnginePayload := mkPayload {
  e_truthScore : JsVal;
  e_aiGeneratedProbability : JsVal;
  e_realProbability : JsVal;
  e_deepfakeDetection : JsVal;
  e_manipulationHeatmap : JsVal;
  e_metadata : JsVal;
  e_predictedSource : JsVal;
  e_processingTime : JsVal;
  e_frameAnalyses : JsVal
}.

(** The 2xx body as the task receives it. [Object]: a JSON object (a body
    that is a string or a number reads every key as undefined, which is an
    object with [JUndefined] fields). [Nullish]: the body is [null] or
    [undefined], so that reading [result.truthScore] throws a TypeError;
    [type_error] is the message the runtime gives that TypeError. *)
Inductive EngineBody :=
| Object (result : EnginePayload)
| Nullish (type_error : string).

(** What the [catch] block of a task can receive: a [CustomError] (from the
    gateway or from the store), or the TypeError of a nullish body. *)
Inductive Thrown :=
| ThrownCustom (e : CustomError)
| ThrownTypeError (msg : string).

(** [(error as Error).message] *)
Definition thrown_message (t : Thrown) : string :=
  match t with
  | ThrownCustom e => message e
  | ThrownTypeError msg => msg
  end.

(** The state the task works on: the shared breaker and the documents. *)
Record World := mkWorld {
  breaker : CircuitBreakerState;
  docs : gmap string Analysis
}.

(** The environment of one task: the gateway call, the database's answer to
    the update in the [try] block and to the one in the [catch] block, and
    the clock read by each [new Date()]. *)
Record TaskEnv := mkTaskEnv {
  call : Call EngineBody;
  db_try : DbOutcome;
  db_catch : DbOutcome;
  t_try : Z;
  t_catch : Z
}.

(** What one task did: the state it leaves, the updates it applied to the
    store, in order, and the error that left the task, if any (both updates
    failed). *)
Record TaskResult := mkTaskResult {
  world_after : World;
  writes : list UpdateAnalysisParams;
  escaped : option CustomError
}.

Definition imageResult (result : EnginePayload) : AnalysisResult :=
  {| truthScore := e_truthScore result;
     aiGeneratedProbability := e_aiGeneratedProbability result;
     realProbability := e_realProbability result;
     deepfakeDetection := e_deepfakeDetection result;
     manipulationHeatmap := e_manipulationHeatmap result;
     metadata := e_metadata result;
     predictedSource := e_predictedSource result;
     processingTime := e_processingTime result;
     videoTimeline := JUndefined |}.

Definition videoResult (result : EnginePayload) : AnalysisResult :=
  {| truthScore := e_truthScore result;
     aiGeneratedProbability :=
       js_or (e_aiGeneratedProbability result) (hundred_minus (e_truthScore result));
     realProbability := e_truthScore result;
     deepfakeDetection := e_deepfakeDetection result;
     manipulationHeatmap := JUndefined;
     metadata := e_metadata result;
     predictedSource := js_or (e_predictedSource result) (JStr "Unknown");
     processingTime := e_processingTime result;
     videoTimeline := e_frameAnalyses result |}.

Definition completedUpdate (r : AnalysisResult) (now : Z) : UpdateAnalysisParams :=
  {| u_status := Some completed;
     u_result := Some r;
     u_error := None;
     u_completedAt := Some now |}.

(** The update of the [catch] block: [error: (error as Error).message]. *)
Definition failedUpdate (error : Thrown) (now : Z) : UpdateAnalysisParams :=
  {| u_status := Some failed;
     u_result := None;
     u_error := Some (thrown_message error);
     u_completedAt := Some now |}.

(** The [catch] block. [w] is the state when the exception arrives. *)
Definition onFailure (analysisId : string) (env : TaskEnv) (w : World)
  (error : Thrown) : TaskResult :=
  let u := failedUpdate error (t_catch env) in
  match updateAnalysis (db_catch env) analysisId u (docs w) with
  | inl e' => mkTaskResult w [] (Some e')
  | inr (_, d) => mkTaskResult (mkWorld (breaker w) d) [u] None
  end.

(** The [try] block after the gateway call, shared by both tasks up to the
    result object. Building that object reads [result.truthScore] first,
    which throws on a nullish body, before any write. The [finally] step
    deletes the uploaded file and touches neither the breaker nor the
    store. *)
Definition afterCall (analysisId : string) (env : TaskEnv) (w : World)
  (toResult : EnginePayload -> AnalysisResult)
  (r : CallResult EngineBody) : TaskResult :=
  let w1 := mkWorld (breaker_after r) (docs w) in
  match outcome r with
  | inl e => onFailure analysisId env w1 (ThrownCustom e)
  | inr (Nullish msg) => onFailure analysisId env w1 (ThrownTypeError msg)
  | inr (Object result) =>
      let u := completedUpdate (toResult result) (t_try env) in
      match updateAnalysis (db_try env) analysisId u (docs w1) with
      | inl e => onFailure analysisId env w1 (ThrownCustom e)
      | inr (_, d) => mkTaskResult (mkWorld (breaker w1) d) [u] None
      end
  end.

(** processImageAnalysis *)
Definition processImageAnalysis (analysisId : string) (env : TaskEnv)
  (w : World) : TaskResult :=
  afterCall analysisId env w imageResult (analyzeImage (call env) (breaker w)).

(** processVideoAnalysis *)
Definition processVideoAnalysis (analysisId : string) (env : TaskEnv)
  (w : World) : TaskResult :=
  afterCall analysisId env w videoResult (analyzeVideo (call env) (breaker w)).

(** startAnalysis: dispatch on the content type; an escaped error is only
    logged. *)
Definition startAnalysis (analysisId : string) (ct : ContentType)
  (env : TaskEnv) (w : World) : TaskResult :=
  match ct with
  | image => processImageAnalysis analysisId env w
  | video => processVideoAnalysis analysisId env w
  end.




(** The record after the updates [us], applied in order. *)
Definition replay (us : list UpdateAnalysisParams) (a : Analysis) : Analysis :=
  fold_left (fun x u => apply_set u x) us a.

(** What reaches the [catch] block of the task, if anything: the error
    thrown by the gateway call, the TypeError of reading a nullish body, or
    the error thrown by the update of the [try] block. *)
Definition caught (analysisId : string) (ct : ContentType) (env : TaskEnv)
  (w : World) : option Thrown :=
  match outcome (analyze ct (call env) (breaker w)) with
  | inl e => Some (ThrownCustom e)
  | inr (Nullish msg) => Some (ThrownTypeError msg)
  | inr (Object result) =>
      let r := match ct with
               | image => imageResult result
               | video => videoResult result
               end in
      match updateAnalysis (db_try env) analysisId
                           (completedUpdate r (t_try env)) (docs w) with
      | inl e => Some (ThrownCustom e)
      | inr _ => None
      end
  end.

End Processor.

(* ===================================================================== *)
(** ** Score Aggregator and Video Timeline Reducer (AI Engine) *)
(* ===================================================================== *)

Module Aggregator.

(** Modelled from the spec: the five detectors of the data model; the AI
    Engine's own sources are not at hand. *)
Inductive ModelId := classifier | deepfake | ganFingerprint | forgery | compression.

(** Modelled from the spec: [PerModelOutput], with [score] and [confidence]
    as exact rationals. *)
Record PerModelOutput := mkOutput {
  modelId : ModelId;
  score : Q;
  confidence : Q
}.

(** Modelled from the spec: the AI Engine's score aggregator
    (score_aggregator.py) is not part of the sources at hand. The fixed base
    weights of the five models. *)
Definition baseWeight (m : ModelId) : Q :=
  match m with
  | classifier => 30 # 100
  | deepfake => 25 # 100
  | ganFingerprint => 20 # 100
  | forgery => 15 # 100
  | compression => 10 # 100
  end.

(** Modelled from the spec: [effectiveWeight_i = baseWeight_i * confidence_i]. *)
Definition effectiveWeight (o : PerModelOutput) : Q :=
  baseWeight (modelId o) * confidence o.

(** Modelled from the spec: [denom = Σ effectiveWeight_i]. *)
Fixpoint denom (os : list PerModelOutput) : Q :=
  match os with
  | [] => 0
  | o :: os' => effectiveWeight o + denom os'
  end.

(** Modelled from the spec: [Σ (effectiveWeight_i * score_i)]. *)
Fixpoint numer (os : list PerModelOutput) : Q :=
  match os with
  | [] => 0
  | o :: os' => effectiveWeight o * score o + numer os'
  end.

(** Modelled from the spec: [round], the nearest integer, a tie going up. *)
Definition round (x : Q) : Z := Qfloor (x + (1 # 2)).

(** Modelled from the spec: "Result clamped to [0,100]". *)
Definition clamp (z : Z) : Z := Z.max 0 (Z.min 100 z).

(** Modelled from the spec: the value before clamping,
    [round (100 * Σ (effectiveWeight_i * score_i) / denom)]. *)
Definition weighted (os : list PerModelOutput) : Z :=
  round (100 * numer os / denom os).

(** Modelled from the spec: the Score Aggregator,
    [truthScore = denom > 0 ? round (100 * Σ (effectiveWeight_i * score_i) / denom) : 50],
    clamped. *)
Definition aggregate (os : list PerModelOutput) : Z :=
  if Qle_bool (denom os) 0 then 50 else clamp (weighted os).

(** Modelled from the spec: [aiGeneratedProbability = 100 - truthScore]. *)
Definition aiGeneratedProbability (truthScore : Z) : Z := 100 - truthScore.

(** The inputs the properties range over. *)
Definition in_range (o : PerModelOutput) : Prop :=
  (0 <= score o <= 1)%Q /\ (0 <= confidence o <= 1)%Q.

(** The scenario of the testable properties. *)
Definition scenario : list PerModelOutput :=
  [ mkOutput classifier (9 # 10) 1;
    mkOutput deepfake 1 1;
    mkOutput ganFingerprint (8 # 10) (1 # 2);
    mkOutput forgery (95 # 100) 1;
    mkOutput compression (7 # 10) 1 ].

(** The same five outputs with every confidence put to 1: the base weights
    alone. *)
Definition full_confidence (os : list PerModelOutput) : list PerModelOutput :=
  map (fun o => mkOutput (modelId o) (score o) 1) os.

End Aggregator.

Module Timeline.
Import Aggregator.

(** Modelled from the spec: one extracted frame of [analyzeVideo], its time
    in the video and the per-model outputs of the detection subsystem for
    it. *)
Record Frame := mkFrame {
  frameTime : Q;
  outputs : list PerModelOutput
}.

(** Modelled from the spec: one entry of [timeline]. *)
Record TimelineEntry := mkEntry {
  frameIndex : nat;
  timestampSec : Q;
  frameScore : Z;
  suspicious : bool
}.

(** Modelled from the spec: what the reducer returns, the video-level score
    (a mean, hence a rational) and the timeline. *)
Record VideoResult := mkVideoResult {
  truthScore : Q;
  timeline : list TimelineEntry
}.

(** Modelled from the spec: the AI Engine's video processor is not part of
    the sources at hand. The fixed threshold of [suspicious]. *)
Definition SUSPICIOUS_BELOW : Z := 50.

(** Modelled from the spec: one timeline entry,
    [suspicious = frameScore < 50]. *)
Definition entry (i : nat) (t : Q) (s : Z) : TimelineEntry :=
  {| frameIndex := i;
     timestampSec := t;
     frameScore := s;
     suspicious := s <? SUSPICIOUS_BELOW |}.

(** Modelled from the spec: the timeline of scored frames, indexed from [i]. *)
Fixpoint entries (i : nat) (scored : list (Q * Z)) : list TimelineEntry :=
  match scored with
  | [] => []
  | (t, s) :: rest => entry i t s :: entries (S i) rest
  end.

Definition sumZ (xs : list Z) : Z := fold_right Z.add 0 xs.

(** Modelled from the spec: the unweighted arithmetic mean. *)
Definition mean (xs : list Z) : Q :=
  inject_Z (sumZ xs) / inject_Z (Z.of_nat (length xs)).

(** Modelled from the spec: timeline and video-level score of frames whose
    scores are known. *)
Definition reduceScores (scored : list (Q * Z)) : VideoResult :=
  {| truthScore := mean (map snd scored);
     timeline := entries 0 scored |}.

(** Modelled from the spec: each frame is scored by the aggregator. *)
Definition scoreFrame (f : Frame) : Q * Z :=
  (frameTime f, aggregate (outputs f)).

(** Modelled from the spec: the Video Timeline Reducer. [whole] is the
    detection output for the video taken as a single frame, used when no
    frame was extracted. *)
Definition reduce (whole : list PerModelOutput) (frames : list Frame)
  : VideoResult :=
  match frames with
  | [] => reduceScores [scoreFrame (mkFrame 0 whole)]
  | _ :: _ => reduceScores (map scoreFrame frames)
  end.

End Timeline.

(* ===================================================================== *)
(** ** The rest of services/analysisService.ts and its controllers *)
(* ===================================================================== *)

Module Service.
Import Errors Store.

(** The [catch] blocks of the service: any exception that is not already a
    [CustomError] becomes a 500 DATABASE_ERROR carrying its message. *)
Definition db_error (what : string) (m : string) : CustomError :=
  mkCustomError what 500 "DATABASE_ERROR" (ErrorOf m).

(** deleteAnalysis *)
Definition deleteAnalysis (db : DbOutcome) (id : string)
  (docs : gmap string Analysis) : CustomError + gmap string Analysis :=
  match db with
  | DbError m => inl (db_error "Failed to delete analysis" m)
  | DbOk =>
      match docs !! id with
      | None =>
          inl (mkCustomError "Analysis not found" 404 "NOT_FOUND" (AnalysisIdOf id))
      | Some _ => inr (delete id docs)
      end
  end.

(** [PaginationParams]: [None] is a key left out. *)
Record PaginationParams := mkPagination {
  pg_page : option Z;
  pg_limit : option Z
}.

(** [a || b] on a possibly missing number: 0 is falsy. *)
Definition or_number (a : option Z) (b : Z) : Z :=
  match a with
  | Some n => if n =? 0 then b else n
  | None => b
  end.

(** A document as the listing queries return it:
    [.select('_id contentType thumbnail status result.truthScore createdAt
    sourceType').lean()]. [row_truthScore] is [None] when the document has
    no [result]. *)
Record Row := mkRow {
  row_id : string;
  row_contentType : ContentType;
  row_thumbnail : string;
  row_status : Status;
  row_truthScore : option JsVal;
  row_createdAt : Z;
  row_sourceType : SourceType
}.

Definition project (d : string * Analysis) : Row :=
  {| row_id := fst d;
     row_contentType := contentType (snd d);
     row_thumbnail := thumbnail (snd d);
     row_status := status (snd d);
     row_truthScore :=
       match result (snd d) with
       | Some r => Some (truthScore r)
       | None => None
       end;
     row_createdAt := createdAt (snd d);
     row_sourceType := sourceType (snd d) |}.

Record PaginatedResult := mkPaginated {
  analyses : list Row;
  total : Z;
  page : Z;
  totalPages : Z
}.

(** The database as a listing sees it: its answer to the queries, and the
    text of the error with which the server refuses a negative skip. *)
Record Server := mkServer {
  answer : DbOutcome;
  refusal : string
}.

(** [.skip(skip).limit(limit)] on a cursor, for [skip >= 0]: a limit of 0 is
    no limit, a negative limit counts as its absolute value. *)
Definition skip_limit {A} (skip limit : Z) (xs : list A) : list A :=
  let rest := skipn (Z.to_nat skip) xs in
  if limit =? 0 then rest else firstn (Z.to_nat (Z.abs limit)) rest.

(** [Math.ceil (a / b)] for integers, [b] not 0. *)
Definition ceil_div (a b : Z) : Z := - ((- a) / b).

(** The body shared by findAnalysesByUserId and findAllAnalyses.
    [matching] is the list of the documents the filter selects, in the order
    [.sort({ createdAt: -1 })] yields them. *)
Definition paginate (srv : Server) (matching : list (string * Analysis))
  (params : PaginationParams) : CustomError + PaginatedResult :=
  let page := or_number (pg_page params) 1 in
  let limit := or_number (pg_limit params) 10 in
  let skip := (page - 1) * limit in
  match answer srv with
  | DbError m => inl (db_error "Failed to retrieve analyses" m)
  | DbOk =>
      if skip <? 0 then
        inl (db_error "Failed to retrieve analyses" (refusal srv))
      else
        let total := Z.of_nat (length matching) in
        inr {| analyses := map project (skip_limit skip limit matching);
               total := total;
               page := page;
               totalPages := ceil_div total limit |}
  end.

(** The filter [{ userId }]. *)
Definition owned_by (uid : string) (d : string * Analysis) : bool :=
  match userId (snd d) with
  | Some u => String.eqb u uid
  | None => false
  end.

(** findAllAnalyses. [sorted] is the whole collection, newest first. *)
Definition findAllAnalyses (srv : Server) (sorted : list (string * Analysis))
  (params : PaginationParams) : CustomError + PaginatedResult :=
  paginate srv sorted params.

(** findAnalysesByUserId *)
Definition findAnalysesByUserId (srv : Server)
  (sorted : list (string * Analysis)) (uid : string)
  (params : PaginationParams) : CustomError + PaginatedResult :=
  paginate srv (List.filter (owned_by uid) sorted) params.

Definition status_eqb (a b : Status) : bool :=
  match a, b with
  | processing, processing | completed, completed | failed, failed => true
  | _, _ => false
  end.

(** The count of one [$group] bucket. *)
Definition count_status (s : Status) (ds : list (string * Analysis)) : Z :=
  Z.of_nat (length (List.filter (fun d => status_eqb (status (snd d)) s) ds)).

(** The [reduce] step: a bucket exists only for a status that occurs. *)
Definition add_group (s : Status) (n : Z) (m : gmap string Z) : gmap string Z :=
  if n =? 0 then m else <[status_name s := n]> m.

Record Stats := mkStats {
  stats_total : Z;
  byStatus : gmap string Z
}.

(** [userId ? { userId } : {}]: the empty string is falsy. *)
Definition stats_query (uid : option string) (all : list (string * Analysis))
  : list (string * Analysis) :=
  match uid with
  | Some u => if String.eqb u "" then all else List.filter (owned_by u) all
  | None => all
  end.

(** getAnalysisStats. [all] is the collection. *)
Definition getAnalysisStats (db : DbOutcome) (all : list (string * Analysis))
  (uid : option string) : CustomError + Stats :=
  match db with
  | DbError m => inl (db_error "Failed to retrieve statistics" m)
  | DbOk =>
      let matching := stats_query uid all in
      inr {| stats_total := Z.of_nat (length matching);
             byStatus :=
               add_group processing (count_status processing matching)
                 (add_group completed (count_status completed matching)
                    (add_group failed (count_status failed matching) ∅)) |}
  end.

(** The count [byStatus] holds for a status, 0 when it has no bucket. *)
Definition bucket (st : Stats) (s : Status) : Z :=
  default 0 (byStatus st !! status_name s).

(** The query of GET /api/history after [parseInt]: [None] is NaN or a
    missing parameter. *)
Record HistoryQuery := mkHistoryQuery {
  q_page : option Z;
  q_limit : option Z;
  q_userId : option string
}.

Inductive HistoryResponse :=
| HistoryInvalid                       (* 400, INVALID_PAGINATION *)
| HistoryOk (r : PaginatedResult)      (* 200; the rows are copied field by field *)
| HistoryNext (e : CustomError).       (* handed to the error handler *)

(** getHistory (controllers/historyController.ts) *)
Definition getHistory (srv : Server) (sorted : list (string * Analysis))
  (q : HistoryQuery) : HistoryResponse :=
  let page := or_number (q_page q) 1 in
  let limit := or_number (q_limit q) 10 in
  if (page <? 1) || (limit <? 1) || (limit >? 100) then HistoryInvalid
  else
    let params := mkPagination (Some page) (Some limit) in
    let found :=
      match q_userId q with
      | Some u =>
          if String.eqb u "" then findAllAnalyses srv sorted params
          else findAnalysesByUserId srv sorted u params
      | None => findAllAnalyses srv sorted params
      end in
    match found with
    | inl e => HistoryNext e
    | inr r => HistoryOk r
    end.

(** What GET /api/analysis/:analysisId shows of a document. *)
Record AnalysisView := mkView {
  v_id : string;
  v_status : Status;
  v_contentType : ContentType;
  v_sourceType : SourceType;
  v_sourceUrl : option string;
  v_result : option AnalysisResult;
  v_error : option string;
  v_createdAt : Z;
  v_completedAt : option Z
}.

(** getAnalysis (controllers/analysisController.ts): [inl] is the error
    handed to the error handler, [inr] the body of the 200 answer. *)
Definition getAnalysis (db : DbOutcome) (analysisId : string)
  (docs : gmap string Analysis) : CustomError + AnalysisView :=
  if String.eqb analysisId "" then
    inl (mkCustomError "Analysis ID is required" 400 "MISSING_ANALYSIS_ID" NoDetails)
  else
    match findAnalysisById db analysisId docs with
    | inl e => inl e
    | inr None =>
        inl (mkCustomError "Analysis not found" 404 "NOT_FOUND"
                           (AnalysisIdOf analysisId))
    | inr (Some a) =>
        inr {| v_id := analysisId;
               v_status := status a;
               v_contentType := contentType a;
               v_sourceType := sourceType a;
               v_sourceUrl := sourceUrl a;
               v_result := result a;
               v_error := error a;
               v_createdAt := createdAt a;
               v_completedAt := completedAt a |}
    end.

(** The pages 1 to [n] of a listing, one after the other; a page that
    could not be fetched counts as empty. *)
Definition pages_upto (srv : Server) (matching : list (string * Analysis))
  (limit : Z) (n : nat) : list Row :=
  flat_map
    (fun p => match paginate srv matching
                      (mkPagination (Some (Z.of_nat p)) (Some limit)) with
              | inr r => analyses r
              | inl _ => []
              end)
    (seq 1 n).

End Service.

(* ===================================================================== *)
(** ** Intake: utils/fileValidation.ts and controllers/uploadController.ts *)
(* ===================================================================== *)

Module Upload.
Import Errors Store.

(** The [details] of the validation errors. *)
Inductive ValidationDetails :=
| TooLarge (maxSize : string) (actualSize : Z)  (* { maxSize, actualSize } *)
| AllowedTypes (types : list string).           (* { allowedTypes } *)

(** A [CustomError] thrown by the validation, with its own [details]. *)
Record ValidationError := mkValidationError {
  ve_message : string;
  ve_statusCode : Z;
  ve_code : string;
  ve_details : ValidationDetails
}.

Definition ALLOWED_IMAGE_TYPES : list string :=
  ["image/jpeg"; "image/png"; "image/webp"].
Definition ALLOWED_VIDEO_TYPES : list string :=
  ["video/mp4"; "video/quicktime"; "video/webm"].

(** One size limit as the module reads it at start: the text
    [process.env.MAX_..._SIZE_MB || default] and what [parseInt] makes of it
    ([None] is NaN). *)
Record SizeLimit := mkSizeLimit {
  limit_text : string;
  limit_mb : option Z
}.

Record Limits := mkLimits {
  image_limit : SizeLimit;
  video_limit : SizeLimit
}.

(** The defaults, 10 MB and 100 MB. *)
Definition default_limits : Limits :=
  mkLimits (mkSizeLimit "10" (Some 10)) (mkSizeLimit "100" (Some 100)).

Definition limit_for (lim : Limits) (type : ContentType) : SizeLimit :=
  match type with
  | image => image_limit lim
  | video => video_limit lim
  end.

(** [size > maxSize], false when [maxSize] is NaN. *)
Definition exceeds (size : Z) (l : SizeLimit) : bool :=
  match limit_mb l with
  | Some mb => size >? mb * 1024 * 1024
  | None => false
  end.

(** [Math.round (size / 1024 / 1024)] for an integer [size]. *)
Definition round_mb (size : Z) : Z := (2 * size + 1048576) / 2097152.

(** validateFileSize: [Some] is the error thrown. *)
Definition validateFileSize (lim : Limits) (size : Z) (type : ContentType)
  : option ValidationError :=
  let l := limit_for lim type in
  if exceeds size l then
    Some (mkValidationError
            ("File size exceeds " +:+ limit_text l +:+ "MB limit")
            400 "FILE_TOO_LARGE"
            (TooLarge (limit_text l) (round_mb size)))
  else None.

(** What [fileTypeFromBuffer] makes of the buffer. *)
Inductive Detection :=
| Detected (mime : string)
| Undetected
| DetectionThrew.

Definition type_name (type : ContentType) : string :=
  match type with
  | image => "image"
  | video => "video"
  end.

Definition allowed_types (type : ContentType) : list string :=
  match type with
  | image => ALLOWED_IMAGE_TYPES
  | video => ALLOWED_VIDEO_TYPES
  end.

Definition includes (types : list string) (mime : string) : bool :=
  existsb (String.eqb mime) types.

(** validateFileSignature: [inr] is the accepted MIME type, [inl] the
    [error] of an invalid result. *)
Definition validateFileSignature (det : Detection) (expectedType : ContentType)
  : string + string :=
  match det with
  | DetectionThrew => inl "File validation failed"
  | Undetected => inl "Unable to determine file type"
  | Detected mime =>
      if includes (allowed_types expectedType) mime then inr mime
      else inl ("Invalid file type. Expected " +:+ type_name expectedType
                +:+ ", got " +:+ mime)
  end.

(** [a || b] on a string. *)
Definition or_text (a b : string) : string :=
  if String.eqb a "" then b else a.

(** validateImageFile *)
Definition validateImageFile (lim : Limits) (det : Detection) (size : Z)
  : ValidationError + string :=
  match validateFileSize lim size image with
  | Some e => inl e
  | None =>
      match validateFileSignature det image with
      | inl err =>
          inl (mkValidationError (or_text err "Invalid image file") 400
                 "INVALID_FILE_TYPE" (AllowedTypes ALLOWED_IMAGE_TYPES))
      | inr mime => inr mime
      end
  end.

(** validateVideoFile *)
Definition validateVideoFile (lim : Limits) (det : Detection) (size : Z)
  : ValidationError + string :=
  match validateFileSize lim size video with
  | Some e => inl e
  | None =>
      match validateFileSignature det video with
      | inl err =>
          inl (mkValidationError (or_text err "Invalid video file") 400
                 "INVALID_FILE_TYPE" (AllowedTypes ALLOWED_VIDEO_TYPES))
      | inr mime => inr mime
      end
  end.

Definition validateFile (type : ContentType)
  : Limits -> Detection -> Z -> ValidationError + string :=
  match type with
  | image => validateImageFile
  | video => validateVideoFile
  end.

(** A JavaScript string as its UTF-16 code units. *)
Definition units := list Z.

Definition DOT : Z := 46.
Definition UNDERSCORE : Z := 95.

(** The class [[a-zA-Z0-9._-]]. *)
Definition safe_unit (c : Z) : bool :=
  ((97 <=? c) && (c <=? 122)) || ((65 <=? c) && (c <=? 90))
  || ((48 <=? c) && (c <=? 57)) || (c =? 46) || (c =? 95) || (c =? 45).

(** [.replace(/[^a-zA-Z0-9._-]/g, '_')] *)
Definition replace_unsafe (s : units) : units :=
  map (fun c => if safe_unit c then c else UNDERSCORE) s.

(** What a run of [n] dots becomes under [/\.{2,}/g -> '_']. *)
Definition flush (n : nat) : units :=
  match n with
  | O => []
  | S O => [DOT]
  | S (S _) => [UNDERSCORE]
  end.

(** [.replace(/\.{2,}/g, '_')]: every maximal run of two or more dots
    becomes one underscore. [pending] counts the dots of the run being
    read. *)
Fixpoint collapse_dots (pending : nat) (s : units) : units :=
  match s with
  | [] => flush pending
  | c :: rest =>
      if c =? DOT then collapse_dots (S pending) rest
      else flush pending ++ c :: collapse_dots 0 rest
  end.

(** sanitizeFilename *)
Definition sanitizeFilename (filename : units) : units :=
  firstn 255 (collapse_dots 0 (replace_unsafe filename)).

(** No dot is followed by a dot. *)
Fixpoint no_double_dot (s : units) : bool :=
  match s with
  | [] => true
  | c :: rest =>
      match rest with
      | [] => true
      | d :: _ => negb ((c =? DOT) && (d =? DOT)) && no_double_dot rest
      end
  end.

(** [req.file], as multer leaves it. *)
Record UploadedFile := mkUploadedFile {
  f_path : string;
  f_originalname : string;
  f_size : Z
}.

(** The environment of one upload: whether the file can be read, what the
    type detection says, the thumbnail (the generators return a placeholder
    rather than throw), the database's answer to the insert with the id,
    clock and offset shift it uses, and whether a file can be unlinked. *)
Record UploadEnv := mkUploadEnv {
  u_readable : bool;
  u_detected : Detection;
  u_thumbnail : string;
  u_db : DbOutcome;
  u_id : string;
  u_now : Z;
  u_shift : Z;
  u_unlink_ok : bool
}.

Inductive UploadError :=
| UpCustom (e : CustomError)
| UpInvalid (e : ValidationError)
| UpReadFailed.                 (* the exception of [fs.readFile] *)

(** The body of the 200 answer. *)
Record Accepted := mkAccepted {
  acc_analysisId : string;
  acc_status : Status;
  acc_estimatedTime : Z;
  acc_originalName : string;
  acc_size : Z;
  acc_mimeType : string
}.

(** What an upload leaves: the answer (an error is handed to the error
    handler), the store, the files on disk, and the task it started. *)
Record UploadOutcome := mkUploadOutcome {
  up_answer : UploadError + Accepted;
  up_docs : gmap string Analysis;
  up_files : gset string;
  up_started : option (string * string * ContentType)
}.

(** deleteFile: an unlink that fails is logged or ignored, never thrown. *)
Definition deleteFile (unlink_ok : bool) (path : string) (files : gset string)
  : gset string :=
  if unlink_ok then files ∖ {[ path ]} else files.

(** The body shared by uploadImage and uploadVideo; [seconds] is the
    [estimatedTime] of the answer. *)
Definition upload (type : ContentType) (seconds : Z) (lim : Limits)
  (env : UploadEnv) (file : option UploadedFile)
  (docs : gmap string Analysis) (files : gset string) : UploadOutcome :=
  match file with
  | None =>
      mkUploadOutcome
        (inl (UpCustom (mkCustomError "No file uploaded" 400 "NO_FILE_UPLOADED"
                                      NoDetails)))
        docs files None
  | Some f =>
      let failed (e : UploadError) :=
        mkUploadOutcome (inl e) docs
          (if String.eqb (f_path f) "" then files   (* [if (filePath)] *)
           else deleteFile (u_unlink_ok env) (f_path f) files) None in
      if negb (u_readable env) then failed UpReadFailed
      else
        match validateFile type lim (u_detected env) (f_size f) with
        | inl e => failed (UpInvalid e)
        | inr mimeType =>
            match createAnalysis (u_db env) (u_id env) (u_now env) (u_shift env)
                    (mkCreateParams None type Store.upload None (f_path f)
                                    (u_thumbnail env)) docs with
            | inl e => failed (UpCustom e)
            | inr (analysis, docs') =>
                mkUploadOutcome
                  (inr (mkAccepted (u_id env) (status analysis) seconds
                                   (f_originalname f) (f_size f) mimeType))
                  docs' files (Some (u_id env, f_path f, type))
            end
        end
  end.

(** uploadImage *)
Definition uploadImage := upload image 30.

(** uploadVideo *)
Definition uploadVideo := upload video 120.

End Upload.

(* ===================================================================== *)
(** ** Recordings on the shared breaker *)
(* ===================================================================== *)

Module Recording.
Import Gateway.

(** What a call that was let through does to the breaker when it ends: the
    [catch] block's [recordFailure()] or the [recordSuccess()] after the
    answer, with the clock at that moment. Calls in flight at the same time
    record in any order. *)
Inductive Recorded := Failure (t : Z) | Success (t : Z).

Definition record (ev : Recorded) (cb : CircuitBreakerState)
  : CircuitBreakerState :=
  match ev with
  | Failure t => recordFailure t cb
  | Success t => recordSuccess t cb
  end.

Definition record_all (evs : list Recorded) (cb : CircuitBreakerState)
  : CircuitBreakerState :=
  fold_left (fun b ev => record ev b) evs cb.

Definition is_failure (ev : Recorded) : bool :=
  match ev with
  | Failure _ => true
  | Success _ => false
  end.

Definition count_failures (evs : list Recorded) : Z :=
  Z.of_nat (length (List.filter is_failure evs)).

(** Every success comes no later than the reset delay after the failure
    recorded last before it; [last] is the time of that failure. *)
Fixpoint quick (last : Z) (evs : list Recorded) : Prop :=
  match evs with
  | [] => True
  | Failure t :: rest => quick t rest
  | Success t :: rest =>
      t - last <= CIRCUIT_BREAKER_RESET_TIMEOUT /\ quick last rest
  end.

(** The breaker is CLOSED exactly while the counter is below the threshold. *)
Definition closed_below (cb : CircuitBreakerState) : Prop :=
  0 <= failures cb /\
  (state cb = CLOSED <-> failures cb < CIRCUIT_BREAKER_THRESHOLD).

(** The [(statusCode, code)] pairs [mapAIEngineError] can give. *)
Definition mapped_kinds : list (Z * string) :=
  [ (408, "ANALYSIS_TIMEOUT"); (503, "AI_ENGINE_UNAVAILABLE");
    (400, "INVALID_CONTENT"); (413, "CONTENT_TOO_LARGE");
    (500, "ANALYSIS_FAILED"); (500, "AI_ENGINE_ERROR") ].

End Recording.

(* ===================================================================== *)
(** ** Calls in flight together *)
(* ===================================================================== *)

Module Interleaving.
Import Errors Gateway Recording.

(** In analyzeImage and analyzeVideo the request is awaited between
    [checkCircuitBreaker()] and [recordSuccess()] or [recordFailure()], so a
    call that is let through acts on the shared breaker twice, and the steps
    of other calls can come in between. A call that is rejected records its
    failure in the same step as its check (nothing is awaited in between).
    [Starts t t']: a call begins with the clock at [t]; [t'] is the clock its
    [catch] block reads if it is rejected. [Ends ev]: the request of a call
    that was let through has come back, and the call records [ev]. *)
Inductive Step :=
| Starts (t_check t_reject : Z)
| Ends (ev : Recorded).

Definition step (s : Step) (cb : CircuitBreakerState) : CircuitBreakerState :=
  match s with
  | Starts t t' =>
      match checkCircuitBreaker t cb with
      | inl _ => recordFailure t' cb
      | inr cb1 => cb1
      end
  | Ends ev => record ev cb
  end.

Definition run (ss : list Step) (cb : CircuitBreakerState)
  : CircuitBreakerState :=
  fold_left (fun b s => step s b) ss cb.

(** Is a call starting at [t] let through? *)
Definition let_through (t : Z) (cb : CircuitBreakerState) : bool :=
  match checkCircuitBreaker t cb with
  | inl _ => false
  | inr _ => true
  end.

(** What a call records when its request comes back. *)
Definition recording {R} (c : Call R) : Recorded :=
  if fails (post c) then Failure (t_done c) else Success (t_done c).

End Interleaving.

(* ===================================================================== *)
(** ** Concrete inputs used by the examples *)
(* ===================================================================== *)

(** A content-level answer of the engine: HTTP 400 with a message. *)
Definition bad_request : Errors.AxiosError :=
  Errors.mkAxiosError (Some "ERR_BAD_REQUEST")
    (Some (Errors.mkResponse 400
             (Some (Errors.mkResponseData (Some "Unsupported image format")))))
    "Request failed with status code 400".

(** An infra-level failure: nobody listens on the engine's port. *)
Definition refused : Errors.AxiosError :=
  Errors.mkAxiosError (Some "ECONNREFUSED") None "connect ECONNREFUSED 127.0.0.1:8000".


(** A 400 answer whose body carries the engine's own exception text. *)
Definition traceback : string :=
  "Traceback (most recent call last): File detector.py, line 41, in predict: cv2.error".

Definition traceback_answer : Errors.AxiosError :=
  Errors.mkAxiosError (Some "ERR_BAD_REQUEST")
    (Some (Errors.mkResponse 400 (Some (Errors.mkResponseData (Some traceback)))))
    "Request failed with status code 400".

(** An uploaded image, as the upload controller registers it. *)
Definition upload_params : Store.CreateAnalysisParams :=
  Store.mkCreateParams None image Store.upload None "uploads/cat.jpg" "thumb".

(** The world after [createAnalysis] put that upload under id [a1] at time 0. *)
Definition fresh_world : Processor.World :=
  match Store.createAnalysis Store.DbOk "a1" 0 0 upload_params ∅ with
  | inr (_, d) => Processor.mkWorld Gateway.circuitBreaker d
  | inl _ => Processor.mkWorld Gateway.circuitBreaker ∅
  end.

(** A task environment: the answer of the gateway call, a database that
    works, clocks at 2000 and 2001. *)
Definition env_with (p : Gateway.PostOutcome Processor.EngineBody)
  : Processor.TaskEnv :=
  Processor.mkTaskEnv (Gateway.mkCall 1000 1900 p) Store.DbOk Store.DbOk 2000 2001.

(** An answer of the engine for an image. *)
Definition good_payload : Processor.EnginePayload :=
  Processor.mkPayload (Store.JNum 89) (Store.JNum 11) (Store.JNum 89)
    (Store.JObj "{}") Store.JUndefined (Store.JObj "{}") (Store.JStr "Unknown")
    (Store.JNum 1200) Store.JUndefined.

(** A frame at second [t] on which a single, fully confident classifier
    gives [s]. *)
Definition plain_frame (t : Q) (s : Q) : Timeline.Frame :=
  Timeline.mkFrame t [Aggregator.mkOutput Aggregator.classifier s 1].

(** Three frames, one second apart, scoring 80, 40 and 90. *)
Definition three_frames : list Timeline.Frame :=
  [plain_frame 0 (8 # 10); plain_frame 1 (4 # 10); plain_frame 2 (9 # 10)].

(** Every detector down: the neutral entry [{score: 0.5, confidence: 0}]
    for each model. *)
Definition all_neutral : list Aggregator.PerModelOutput :=
  map (fun m => Aggregator.mkOutput m (1 # 2) 0)
      [Aggregator.classifier; Aggregator.deepfake; Aggregator.ganFingerprint;
       Aggregator.forgery; Aggregator.compression].

(** A record of the collection, owned by [owner], created at [t]. *)
Definition doc_of (owner : option string) (st : Store.Status) (t : Z)
  : Store.Analysis :=
  Store.mkAnalysis owner image Store.upload None "f" "t" st None None t None
                   (t + 2592000000).

(** A collection of four records, newest first, two of them of user u1. *)
Definition four_docs : list (string * Store.Analysis) :=
  [ ("d4", doc_of (Some "u1") Store.processing 40);
    ("d3", doc_of None Store.completed 30);
    ("d2", doc_of (Some "u1") Store.failed 20);
    ("d1", doc_of (Some "u2") Store.completed 10) ].

(** A database that answers. *)
Definition up : Service.Server := Service.mkServer Store.DbOk "refused".

(** A call whose request is refused, checked at [t] and recorded at [t + 10]. *)
Definition refused_call (t : Z) : Gateway.Call unit :=
  Gateway.mkCall t (t + 10) (Gateway.AxiosFailed refused).

(** A call the engine answers, checked at [t] and recorded at [t + 10]. *)
Definition answered_call (t : Z) : Gateway.Call unit :=
  Gateway.mkCall t (t + 10) (Gateway.Responded tt).

(** The breaker after five failures, the last at time 5000. *)
Definition tripped : Gateway.CircuitBreakerState :=
  Gateway.mkBreaker 5 5000 Gateway.OPEN.

(* ===================================================================== *)
(** * Properties of the Gateway *)
(* ===================================================================== *)

Section GatewayFacts.
Import Errors Gateway.
Context {R : Type}.
Implicit Types (c : Call R) (cb : CircuitBreakerState) (ct : ContentType).

Lemma analyzeVideo_analyzeImage c cb : analyzeVideo c cb = analyzeImage c cb.
Proof. reflexivity. Qed.

Lemma analyze_analyzeImage ct c cb : analyze ct c cb = analyzeImage c cb.
Proof. destruct ct; reflexivity. Qed.

Lemma recordFailure_failures now cb :
  failures (recordFailure now cb) = failures cb + 1.
Proof. reflexivity. Qed.

Lemma recordFailure_time now cb : lastFailureTime (recordFailure now cb) = now.
Proof. reflexivity. Qed.

Lemma recordFailure_open now cb :
  state cb = OPEN -> state (recordFailure now cb) = OPEN.
Proof.
  intros Hs. unfold recordFailure. simpl. rewrite Hs.
  destruct (_ >=? _); reflexivity.
Qed.

Lemma recordFailure_threshold now cb :
  CIRCUIT_BREAKER_THRESHOLD <= failures cb + 1 ->
  state (recordFailure now cb) = OPEN.
Proof.
  intros H. unfold recordFailure. simpl.
  destruct (Z.geb_spec (failures cb + 1) CIRCUIT_BREAKER_THRESHOLD); [reflexivity | lia].
Qed.

Lemma recordSuccess_failures now cb :
  failures (recordSuccess now cb) = failures cb \/
  failures (recordSuccess now cb) = 0.
Proof.
  unfold recordSuccess. destruct (state cb); simpl; auto.
  destruct (_ >? _); simpl; auto.
Qed.

Lemma check_closed now cb :
  state cb <> OPEN -> checkCircuitBreaker now cb = inr cb.
Proof. unfold checkCircuitBreaker. destruct (state cb); congruence. Qed.

Lemma check_open_early now cb :
  state cb = OPEN ->
  now - lastFailureTime cb <= CIRCUIT_BREAKER_TIMEOUT ->
  exists e, checkCircuitBreaker now cb = inl e /\
            statusCode e = 503 /\ code e = "AI_ENGINE_UNAVAILABLE".
Proof.
  intros Hs Ht. unfold checkCircuitBreaker. rewrite Hs.
  destruct (Z.gtb_spec (now - lastFailureTime cb) CIRCUIT_BREAKER_TIMEOUT); [lia|].
  eexists. split; [reflexivity|]. split; reflexivity.
Qed.

Lemma check_open_late now cb :
  state cb = OPEN ->
  now - lastFailureTime cb > CIRCUIT_BREAKER_TIMEOUT ->
  checkCircuitBreaker now cb =
    inr {| failures := failures cb;
           lastFailureTime := lastFailureTime cb;
           state := HALF_OPEN |}.
Proof.
  intros Hs Ht. unfold checkCircuitBreaker. rewrite Hs.
  destruct (Z.gtb_spec (now - lastFailureTime cb) CIRCUIT_BREAKER_TIMEOUT); [reflexivity|lia].
Qed.

(** A call the open breaker turns away: nothing is sent, and the rejection
    is itself recorded as a failure. *)
Lemma analyzeImage_rejects c cb :
  state cb = OPEN ->
  t_check c - lastFailureTime cb <= CIRCUIT_BREAKER_TIMEOUT ->
  rejected (analyzeImage c cb) /\
  breaker_after (analyzeImage c cb) = recordFailure (t_done c) cb.
Proof.
  intros Hs Ht.
  destruct (check_open_early (t_check c) cb Hs Ht) as (e & He & Hc & Hk).
  unfold analyzeImage, rejected. rewrite He. simpl. eauto 6.
Qed.

(** A check never changes the failure counter, and only moves OPEN to
    HALF_OPEN. *)
Lemma check_inr now cb cb' :
  checkCircuitBreaker now cb = inr cb' ->
  failures cb' = failures cb /\
  lastFailureTime cb' = lastFailureTime cb /\
  (state cb' = state cb \/ (state cb = OPEN /\ state cb' = HALF_OPEN)).
Proof.
  unfold checkCircuitBreaker. destruct (state cb) eqn:Hs.
  - intros [= <-]. auto.
  - destruct (_ >? _); intros [= <-]; simpl. auto.
  - intros [= <-]. auto.
Qed.

Lemma breaker_inv_step cb cb' :
  breaker_inv cb -> BreakerStep cb cb' -> breaker_inv cb'.
Proof.
  intros [H0 H5] Hstep. destruct Hstep as [now cb cb' Hc | now cb | now cb].
  - destruct (check_inr _ _ _ Hc) as (Hf & _ & [Hs | [Hs Hs']]);
      unfold breaker_inv; rewrite Hf.
    + rewrite Hs. auto.
    + split; [assumption|]. intros _. apply H5. rewrite Hs. discriminate.
  - unfold breaker_inv, recordFailure. simpl. split; [lia|].
    destruct (Z.geb_spec (failures cb + 1) CIRCUIT_BREAKER_THRESHOLD) as [Hge|Hlt].
    + intros _. assumption.
    + intros Hn. specialize (H5 Hn). lia.
  - unfold breaker_inv, recordSuccess.
    destruct (state cb) eqn:Hs; simpl.
    + destruct (_ >? _); simpl; [split; [lia|congruence]|].
      rewrite Hs. split; [assumption|congruence].
    + rewrite Hs. split; [assumption|]. intros _. apply H5. discriminate.
    + split; [lia|congruence].
Qed.

Lemma reachable_inv cb : Reachable cb -> breaker_inv cb.
Proof.
  induction 1 as [|cb cb' _ IH Hstep].
  - split; [reflexivity|]. simpl. congruence.
  - eapply breaker_inv_step; eassumption.
Qed.

(** The recording step of a trial, whatever ran in between: on a reachable
    HALF_OPEN breaker a success closes it with the counter at 0, a failure
    opens it again. *)
Lemma half_open_record now cb :
  Reachable cb -> state cb = HALF_OPEN ->
  recordSuccess now cb
  = {| failures := 0; lastFailureTime := lastFailureTime cb; state := CLOSED |} /\
  state (recordFailure now cb) = OPEN /\
  lastFailureTime (recordFailure now cb) = now.
Proof.
  intros Hr Hs. destruct (reachable_inv _ Hr) as [_ H5].
  split; [unfold recordSuccess; rewrite Hs; reflexivity|].
  split; [|reflexivity].
  apply recordFailure_threshold.
  assert (CIRCUIT_BREAKER_THRESHOLD <= failures cb)
    by (apply H5; rewrite Hs; discriminate).
  lia.
Qed.

(** A whole call is two steps of the breaker (or one, when rejected). *)
Lemma reachable_analyzeImage c cb :
  Reachable cb -> Reachable (breaker_after (analyzeImage c cb)).
Proof.
  intros Hr. unfold analyzeImage.
  destruct (checkCircuitBreaker (t_check c) cb) as [e|cb1] eqn:Hc; simpl.
  - eapply reach_step; [exact Hr | apply step_failure].
  - assert (Reachable cb1) as Hr1
      by (eapply reach_step; [exact Hr | eapply step_check; exact Hc]).
    destruct (post c); simpl;
      (eapply reach_step; [exact Hr1 | first [apply step_failure | apply step_success]]).
Qed.

Lemma reachable_analyze ct c cb :
  Reachable cb -> Reachable (breaker_after (analyze ct c cb)).
Proof. rewrite analyze_analyzeImage. apply reachable_analyzeImage. Qed.

(** Every failing call leaves one more failure, stamped with its end. *)
Lemma analyzeImage_failure c cb e :
  outcome (analyzeImage c cb) = inl e ->
  failures (breaker_after (analyzeImage c cb)) = failures cb + 1 /\
  lastFailureTime (breaker_after (analyzeImage c cb)) = t_done c.
Proof.
  unfold analyzeImage.
  destruct (checkCircuitBreaker (t_check c) cb) as [e0|cb1] eqn:Hc; simpl.
  - auto.
  - destruct (check_inr _ _ _ Hc) as (Hf & _ & _).
    destruct (post c); simpl; rewrite ?Hf; auto. discriminate.
Qed.

Lemma analyzeImage_fails c cb :
  fails (post c) = true -> exists e, outcome (analyzeImage c cb) = inl e.
Proof.
  intros Hf. unfold analyzeImage.
  destruct (checkCircuitBreaker (t_check c) cb); simpl; [eauto|].
  destruct (post c); simpl; eauto. discriminate.
Qed.

Lemma analyzeImage_failure_shape c cb :
  fails (post c) = true ->
  exists cb1, failures cb1 = failures cb /\
              breaker_after (analyzeImage c cb) = recordFailure (t_done c) cb1.
Proof.
  intros Hf. unfold analyzeImage.
  destruct (checkCircuitBreaker (t_check c) cb) as [e0|cb1] eqn:Hc; simpl.
  - exists cb. auto.
  - destruct (check_inr _ _ _ Hc) as (Hfl & _ & _).
    exists cb1. destruct (post c); simpl; auto. discriminate.
Qed.

Lemma analyzeImage_open_after_failure c cb :
  fails (post c) = true ->
  CIRCUIT_BREAKER_THRESHOLD <= failures cb + 1 ->
  state (breaker_after (analyzeImage c cb)) = OPEN /\
  lastFailureTime (breaker_after (analyzeImage c cb)) = t_done c.
Proof.
  intros Hf Hge.
  destruct (analyzeImage_failure_shape c cb Hf) as (cb1 & Hfl & ->).
  split; [|reflexivity]. apply recordFailure_threshold. lia.
Qed.

Lemma analyzeImage_counts_failure c cb :
  fails (post c) = true ->
  failures (breaker_after (analyzeImage c cb)) = failures cb + 1.
Proof.
  intros Hf. destruct (analyzeImage_failure_shape c cb Hf) as (cb1 & Hfl & ->).
  rewrite recordFailure_failures. lia.
Qed.

(** Rejected calls in a row, each within the window of the one before. *)
Lemma run_calls_rejected ct (cs : list (Call R)) : forall cb,
  state cb = OPEN ->
  within_window (lastFailureTime cb) cs ->
  Forall rejected (snd (run_calls ct cs cb)) /\
  state (fst (run_calls ct cs cb)) = OPEN /\
  failures (fst (run_calls ct cs cb)) = failures cb + Z.of_nat (length cs) /\
  lastFailureTime (fst (run_calls ct cs cb)) = last_done (lastFailureTime cb) cs.
Proof.
  induction cs as [|c cs IH]; intros cb Hs Hw.
  - simpl. split; [constructor|]. split; [assumption|]. split; [lia|reflexivity].
  - destruct Hw as [Ht Hw]. cbn [run_calls].
    rewrite analyze_analyzeImage.
    destruct (analyzeImage_rejects c cb Hs Ht) as [Hrej Hb].
    assert (state (breaker_after (analyzeImage c cb)) = OPEN) as Hs'
      by (rewrite Hb; apply recordFailure_open; assumption).
    assert (lastFailureTime (breaker_after (analyzeImage c cb)) = t_done c) as Ht'
      by (rewrite Hb; reflexivity).
    assert (failures (breaker_after (analyzeImage c cb)) = failures cb + 1) as Hf'
      by (rewrite Hb; reflexivity).
    specialize (IH (breaker_after (analyzeImage c cb)) Hs').
    rewrite Ht' in IH. specialize (IH Hw).
    destruct (run_calls ct cs (breaker_after (analyzeImage c cb))) as [cb' rs].
    cbn [fst snd] in *. destruct IH as (Hall & Hst & Hfl & Hlast).
    split; [constructor; assumption|]. split; [assumption|].
    split; [|exact Hlast].
    rewrite Hfl, Hf'. cbn [length]. lia.
Qed.

End GatewayFacts.

Example bad_request_is_content_level :
  Gateway.content_level bad_request = true /\
  Gateway.infra_level refused = true.
Proof. split; reflexivity. Qed.

Example bad_request_on_fresh_breaker :
  let r := Gateway.analyzeImage
             (Gateway.mkCall 1000 1200 (@Gateway.AxiosFailed unit bad_request))
             Gateway.circuitBreaker in
  Gateway.contacted r = true /\
  Gateway.outcome r =
    inl (Errors.mkCustomError "Unsupported image format" 400 "INVALID_CONTENT"
           (Errors.ResponseBody
              (Some (Errors.mkResponseData (Some "Unsupported image format"))))) /\
  Gateway.breaker_after r = Gateway.mkBreaker 1 1200 Gateway.CLOSED.
Proof. repeat split. Qed.

(** Five content-level rejections in a row open the breaker too. *)
Example five_bad_requests_open :
  let c t := Gateway.mkCall t (t + 10) (@Gateway.AxiosFailed unit bad_request) in
  fst (Gateway.run_calls image [c 0; c 100; c 200; c 300; c 400] Gateway.circuitBreaker)
  = Gateway.mkBreaker 5 410 Gateway.OPEN.
Proof. reflexivity. Qed.

(** C1 (as stated, refuted): a call that fails with a content-level
    rejection does not leave the failure counter alone. The statement under
    the negation is the claim: for every call answered by a 4xx rejection the
    counter after the call is the counter before it. It fails for a 400
    answer on the fresh breaker, whose counter goes from 0 to 1. *)
Lemma content_rejection_is_counted :
  ~ (forall (ct : ContentType) (c : Gateway.Call unit)
            (cb : Gateway.CircuitBreakerState) (e : Errors.AxiosError),
        Gateway.post c = Gateway.AxiosFailed e ->
        Gateway.content_level e = true ->
        Gateway.failures (Gateway.breaker_after (Gateway.analyze ct c cb))
        = Gateway.failures cb).
Proof.
  intros H.
  specialize (H image (Gateway.mkCall 1000 1200 (Gateway.AxiosFailed bad_request))
                Gateway.circuitBreaker bad_request eq_refl eq_refl).
  vm_compute in H. discriminate H.
Qed.

(** C1 (amended): every call to the Gateway that fails, whatever the reason
    (a content-level rejection, an infra-level failure, a local exception,
    or the breaker's own fail-fast rejection), increments the failure
    counter by one and stamps [lastFailureTime] with the end of the call; a
    call that returns a payload never increments it (the counter is kept or
    reset to 0). A call whose request does not come back with a payload is
    such a failing call. *)
Theorem every_failure_is_counted :
  forall (R : Type) (ct : ContentType) (c : Gateway.Call R)
         (cb : Gateway.CircuitBreakerState),
    let r := Gateway.analyze ct c cb in
    match Gateway.outcome r with
    | inl _ =>
        Gateway.failures (Gateway.breaker_after r) = Gateway.failures cb + 1 /\
        Gateway.lastFailureTime (Gateway.breaker_after r) = Gateway.t_done c
    | inr _ =>
        Gateway.fails (Gateway.post c) = false /\
        (Gateway.failures (Gateway.breaker_after r) = Gateway.failures cb \/
         Gateway.failures (Gateway.breaker_after r) = 0)
    end.
Proof.
  intros R ct c cb r. subst r. rewrite analyze_analyzeImage.
  destruct (Gateway.outcome (Gateway.analyzeImage c cb)) as [e|d] eqn:Ho.
  - eapply analyzeImage_failure; eassumption.
  - revert Ho. unfold Gateway.analyzeImage.
    destruct (Gateway.checkCircuitBreaker (Gateway.t_check c) cb) as [e0|cb1] eqn:Hc;
      simpl; [discriminate|].
    destruct (check_inr _ _ _ Hc) as (Hfl & _ & _).
    destruct (Gateway.post c); simpl; try discriminate. intros _.
    split; [reflexivity|]. rewrite <- Hfl. apply recordSuccess_failures.
Qed.

Lemma tripped_reachable : Gateway.Reachable tripped.
Proof.
  pose proof (@reachable_analyze unit image) as H.
  pose proof (H (refused_call 10) _ Gateway.reach_init) as H1.
  pose proof (H (refused_call 1000) _ H1) as H2.
  pose proof (H (refused_call 2000) _ H2) as H3.
  pose proof (H (refused_call 3000) _ H3) as H4.
  pose proof (H (refused_call 4990) _ H4) as H5.
  exact H5.
Qed.

(** C5: from any reachable breaker, five calls in a row that fail at the
    infra level (each recorded by the Gateway) leave the breaker OPEN; the
    next call, started while the cool-down that the fifth failure began is
    still running, is rejected with the 503 AI_ENGINE_UNAVAILABLE error and
    the request is never sent. *)
Theorem breaker_opens_after_five_failures :
  forall (R : Type) (ct : ContentType) (c1 c2 c3 c4 c5 c6 : Gateway.Call R)
         (cb : Gateway.CircuitBreakerState),
    Gateway.Reachable cb ->
    Forall (fun c => Gateway.infra_failure (Gateway.post c) = true)
           [c1; c2; c3; c4; c5] ->
    let cb5 := fst (Gateway.run_calls ct [c1; c2; c3; c4; c5] cb) in
    Gateway.state cb5 = Gateway.OPEN /\
    Gateway.failures cb5 = Gateway.failures cb + 5 /\
    (Gateway.t_check c6 - Gateway.t_done c5 <= Gateway.CIRCUIT_BREAKER_TIMEOUT ->
     Gateway.rejected (Gateway.analyze ct c6 cb5)).
Proof.
  intros R ct c1 c2 c3 c4 c5 c6 cb Hr Hall cb5.
  assert (forall c : Gateway.Call R,
             Gateway.infra_failure (Gateway.post c) = true ->
             Gateway.fails (Gateway.post c) = true) as Hinfra
    by (intros c; destruct (Gateway.post c); simpl; congruence).
  repeat match goal with
         | H : Forall _ (_ :: _) |- _ => inversion H; subst; clear H
         end.
  repeat match goal with
         | H : Gateway.infra_failure _ = true |- _ => apply Hinfra in H
         end.
  destruct (reachable_inv _ Hr) as [H0 _].
  subst cb5. cbn [Gateway.run_calls].
  repeat rewrite analyze_analyzeImage.
  set (b1 := Gateway.breaker_after (Gateway.analyzeImage c1 cb)).
  set (b2 := Gateway.breaker_after (Gateway.analyzeImage c2 b1)).
  set (b3 := Gateway.breaker_after (Gateway.analyzeImage c3 b2)).
  set (b4 := Gateway.breaker_after (Gateway.analyzeImage c4 b3)).
  set (b5 := Gateway.breaker_after (Gateway.analyzeImage c5 b4)).
  cbn [fst].
  assert (Gateway.failures b1 = Gateway.failures cb + 1) as E1
    by (apply analyzeImage_counts_failure; assumption).
  assert (Gateway.failures b2 = Gateway.failures b1 + 1) as E2
    by (apply analyzeImage_counts_failure; assumption).
  assert (Gateway.failures b3 = Gateway.failures b2 + 1) as E3
    by (apply analyzeImage_counts_failure; assumption).
  assert (Gateway.failures b4 = Gateway.failures b3 + 1) as E4
    by (apply analyzeImage_counts_failure; assumption).
  assert (Gateway.failures b5 = Gateway.failures b4 + 1) as E5
    by (apply analyzeImage_counts_failure; assumption).
  assert (Gateway.state b5 = Gateway.OPEN /\ Gateway.lastFailureTime b5 = Gateway.t_done c5)
    as [Hs Ht].
  { apply analyzeImage_open_after_failure; [assumption|].
    unfold Gateway.CIRCUIT_BREAKER_THRESHOLD. lia. }
  split; [exact Hs|]. split; [lia|].
  intros Hw. apply analyzeImage_rejects; [exact Hs|]. rewrite Ht. exact Hw.
Qed.

Lemma breaker_opens_after_five_failures_witness :
  let cs := [refused_call 10; refused_call 1000; refused_call 2000;
             refused_call 3000; refused_call 4990] in
  let cb5 := fst (Gateway.run_calls image cs Gateway.circuitBreaker) in
  Gateway.state cb5 = Gateway.OPEN /\
  Gateway.failures cb5 = 5 /\
  Gateway.rejected (Gateway.analyze image (answered_call 20000) cb5).
Proof.
  destruct (breaker_opens_after_five_failures unit image
              (refused_call 10) (refused_call 1000) (refused_call 2000)
              (refused_call 3000) (refused_call 4990) (answered_call 20000)
              Gateway.circuitBreaker Gateway.reach_init)
    as (Hs & Hf & Hrej).
  - repeat constructor.
  - split; [exact Hs|]. split; [exact Hf|].
    apply Hrej. vm_compute. discriminate.
Defined.

(** A trial run alone, no other call acting on the breaker between its
    check and its recording. On a reachable OPEN breaker, a call that starts
    once more than the cool-down of 60000 ms has passed since the last
    failure moves the breaker to HALF_OPEN and is let through. If it is
    answered, the breaker ends CLOSED with the counter at 0. If it fails,
    the breaker ends OPEN again with [lastFailureTime] set to the end of the
    trial, and a call within 60000 ms of that is rejected. *)
Theorem half_open_trial :
  forall (R : Type) (ct : ContentType) (c : Gateway.Call R)
         (cb : Gateway.CircuitBreakerState),
    Gateway.Reachable cb ->
    Gateway.state cb = Gateway.OPEN ->
    Gateway.t_check c - Gateway.lastFailureTime cb > Gateway.CIRCUIT_BREAKER_TIMEOUT ->
    let r := Gateway.analyze ct c cb in
    (exists cb1, Gateway.checkCircuitBreaker (Gateway.t_check c) cb = inr cb1 /\
                 Gateway.state cb1 = Gateway.HALF_OPEN) /\
    (forall d, Gateway.post c = Gateway.Responded d ->
       Gateway.contacted r = true /\
       Gateway.outcome r = inr d /\
       Gateway.state (Gateway.breaker_after r) = Gateway.CLOSED /\
       Gateway.failures (Gateway.breaker_after r) = 0) /\
    (Gateway.fails (Gateway.post c) = true ->
       Gateway.state (Gateway.breaker_after r) = Gateway.OPEN /\
       Gateway.lastFailureTime (Gateway.breaker_after r) = Gateway.t_done c /\
       forall c' : Gateway.Call R,
         Gateway.t_check c' - Gateway.t_done c <= Gateway.CIRCUIT_BREAKER_TIMEOUT ->
         Gateway.rejected (Gateway.analyze ct c' (Gateway.breaker_after r))).
Proof.
  intros R ct c cb Hr Hs Ht r. subst r.
  pose proof (check_open_late (Gateway.t_check c) cb Hs Ht) as Hc.
  destruct (reachable_inv _ Hr) as [_ H5].
  assert (Gateway.CIRCUIT_BREAKER_THRESHOLD <= Gateway.failures cb) as Hge
    by (apply H5; rewrite Hs; discriminate).
  split; [eexists; split; [exact Hc | reflexivity]|].
  rewrite analyze_analyzeImage. split.
  - intros d Hd. unfold Gateway.analyzeImage. rewrite Hc, Hd. simpl. auto.
  - intros Hf.
    assert (Gateway.state (Gateway.breaker_after (Gateway.analyzeImage c cb)) = Gateway.OPEN /\
            Gateway.lastFailureTime (Gateway.breaker_after (Gateway.analyzeImage c cb))
            = Gateway.t_done c) as [Hs' Ht'].
    { apply analyzeImage_open_after_failure; [assumption | lia]. }
    split; [exact Hs'|]. split; [exact Ht'|].
    intros c' Hw. rewrite analyze_analyzeImage.
    apply analyzeImage_rejects; [exact Hs'|]. rewrite Ht'. exact Hw.
Qed.

Lemma half_open_trial_witness :
  (let r := Gateway.analyze image (answered_call 65001) tripped in
   Gateway.contacted r = true /\
   Gateway.state (Gateway.breaker_after r) = Gateway.CLOSED /\
   Gateway.failures (Gateway.breaker_after r) = 0) /\
  (let r := Gateway.analyze video (refused_call 65001) tripped in
   Gateway.state (Gateway.breaker_after r) = Gateway.OPEN /\
   Gateway.lastFailureTime (Gateway.breaker_after r) = 65011 /\
   Gateway.rejected
     (Gateway.analyze video (answered_call 125011) (Gateway.breaker_after r))).
Proof.
  split.
  - destruct (half_open_trial unit image (answered_call 65001) tripped
                tripped_reachable eq_refl eq_refl) as (_ & Hok & _).
    destruct (Hok tt eq_refl) as (Hc & _ & Hs & Hf). auto.
  - destruct (half_open_trial unit video (refused_call 65001) tripped
                tripped_reachable eq_refl eq_refl) as (_ & _ & Hko).
    destruct (Hko eq_refl) as (Hs & Ht & Hrej).
    split; [exact Hs|]. split; [exact Ht|].
    apply Hrej. vm_compute. discriminate.
Defined.

(** The cool-down is tested with a strict comparison: exactly 60000 ms after
    the last failure the call is still turned away. *)
Example cooldown_boundary :
  Gateway.rejected (Gateway.analyze image (answered_call 65000) tripped) /\
  Gateway.contacted (Gateway.analyze image (answered_call 65001) tripped) = true.
Proof.
  split; [|reflexivity].
  split; [reflexivity|]. eexists. split; [reflexivity|]. split; reflexivity.
Qed.

(** C10: while the breaker is OPEN, every call that starts within the
    cool-down of the last recorded failure is rejected without the subsystem
    being contacted, and the rejection is itself recorded: the counter goes
    up by one per call and [lastFailureTime] becomes the time of the latest
    rejection. So in a run of such calls, each within the window of the one
    before it, all are rejected however long the run lasts, the breaker stays
    OPEN, and it differs from the breaker before the run. *)
Theorem rejection_restarts_cooldown :
  forall (R : Type) (ct : ContentType) (cs : list (Gateway.Call R))
         (cb : Gateway.CircuitBreakerState),
    Gateway.state cb = Gateway.OPEN ->
    Gateway.within_window (Gateway.lastFailureTime cb) cs ->
    let cb' := fst (Gateway.run_calls ct cs cb) in
    let rs := snd (Gateway.run_calls ct cs cb) in
    Forall Gateway.rejected rs /\
    Gateway.state cb' = Gateway.OPEN /\
    Gateway.failures cb' = Gateway.failures cb + Z.of_nat (length cs) /\
    Gateway.lastFailureTime cb' = Gateway.last_done (Gateway.lastFailureTime cb) cs /\
    (cs <> [] -> cb' <> cb).
Proof.
  intros R ct cs cb Hs Hw cb' rs. subst cb' rs.
  destruct (run_calls_rejected ct cs cb Hs Hw) as (Hall & Hst & Hfl & Hlast).
  split; [exact Hall|]. split; [exact Hst|]. split; [exact Hfl|].
  split; [exact Hlast|].
  intros Hne Heq. rewrite Heq in Hfl.
  destruct cs as [|c cs]; [congruence|]. cbn [length] in Hfl. lia.
Qed.

Lemma rejection_restarts_cooldown_witness :
  let cs := [answered_call 60000; answered_call 115000; answered_call 170000] in
  let cb' := fst (Gateway.run_calls image cs tripped) in
  Forall Gateway.rejected (snd (Gateway.run_calls image cs tripped)) /\
  Gateway.state cb' = Gateway.OPEN /\
  Gateway.failures cb' = 8 /\
  Gateway.lastFailureTime cb' = 170010 /\
  cb' <> tripped.
Proof.
  destruct (rejection_restarts_cooldown unit image
              [answered_call 60000; answered_call 115000; answered_call 170000]
              tripped eq_refl) as (Hall & Hs & Hf & Ht & Hne).
  - vm_compute. repeat split; discriminate.
  - split; [exact Hall|]. split; [exact Hs|]. split; [exact Hf|].
    split; [exact Ht|]. apply Hne. discriminate.
Defined.

(** Left alone for the cool-down, the same breaker lets the call at 170000
    through: it is the rejections that kept the window open. *)
Example quiet_breaker_recovers :
  Gateway.contacted (Gateway.analyze image (answered_call 170000) tripped) = true.
Proof. reflexivity. Qed.

(* ===================================================================== *)
(** * Properties of the Orchestrator and the Status Store *)
(* ===================================================================== *)

Section ProcessorFacts.
Import Errors Gateway Store Processor.
Implicit Types (a : Analysis) (d : gmap string Analysis) (w : World)
  (env : TaskEnv) (u : UpdateAnalysisParams) (e : CustomError) (th : Thrown).

Lemma updateAnalysis_found db id u d a' d' :
  updateAnalysis db id u d = inr (a', d') ->
  exists a, d !! id = Some a /\ a' = apply_set u a /\ d' = <[id := a']> d.
Proof.
  unfold updateAnalysis. destruct db; [|discriminate].
  destruct (d !! id) as [a|] eqn:Hl; [|discriminate].
  intros [= <- <-]. eauto.
Qed.

Lemma updateAnalysis_ok id u d a :
  d !! id = Some a ->
  updateAnalysis DbOk id u d = inr (apply_set u a, <[id := apply_set u a]> d).
Proof. intros Hl. unfold updateAnalysis. rewrite Hl. reflexivity. Qed.


Lemma createAnalysis_ok id now shift params d0 a d1 :
  createAnalysis DbOk id now shift params d0 = inr (a, d1) ->
  status a = processing /\ result a = None /\ error a = None /\
  d1 !! id = Some a.
Proof.
  unfold createAnalysis. intros [= <- <-]. simpl.
  rewrite lookup_insert_eq. auto.
Qed.

(** The [catch] block writes the failed update, or nothing. *)
Lemma onFailure_shape id env w th :
  let r := onFailure id env w th in
  breaker (world_after r) = breaker w /\
  ((writes r = [] /\ docs (world_after r) = docs w /\ is_Some (escaped r)) \/
   (exists a, docs w !! id = Some a /\
              writes r = [failedUpdate th (t_catch env)] /\
              docs (world_after r)
              = <[id := apply_set (failedUpdate th (t_catch env)) a]> (docs w))).
Proof.
  unfold onFailure.
  destruct (updateAnalysis (db_catch env) id (failedUpdate th (t_catch env)) (docs w))
    as [e'|[a' d']] eqn:Hu; simpl.
  - split; [reflexivity|]. left. eauto.
  - split; [reflexivity|]. right.
    destruct (updateAnalysis_found _ _ _ _ _ _ Hu) as (a & Hl & -> & ->). eauto.
Qed.

Lemma startAnalysis_afterCall id ct env w :
  startAnalysis id ct env w
  = afterCall id env w
      (match ct with image => imageResult | video => videoResult end)
      (analyze ct (call env) (breaker w)).
Proof. destruct ct; reflexivity. Qed.

(** One task applies at most one update to the store, and that update
    writes a terminal status. *)
Lemma startAnalysis_shape id ct env w :
  let r := startAnalysis id ct env w in
  (writes r = [] /\ docs (world_after r) = docs w) \/
  (exists a u, docs w !! id = Some a /\ writes r = [u] /\
               docs (world_after r) = <[id := apply_set u a]> (docs w) /\
               ((exists res, u = completedUpdate res (t_try env)) \/
                (exists th, u = failedUpdate th (t_catch env)))).
Proof.
  cbv zeta. rewrite startAnalysis_afterCall. unfold afterCall.
  set (r0 := analyze ct (call env) (breaker w)).
  set (w1 := mkWorld (breaker_after r0) (docs w)).
  assert (forall th,
    (writes (onFailure id env w1 th) = [] /\
     docs (world_after (onFailure id env w1 th)) = docs w) \/
    (exists a u, docs w !! id = Some a /\ writes (onFailure id env w1 th) = [u] /\
       docs (world_after (onFailure id env w1 th)) = <[id := apply_set u a]> (docs w) /\
       ((exists res, u = completedUpdate res (t_try env)) \/
        (exists th0, u = failedUpdate th0 (t_catch env))))) as Hfail.
  { intros th. destruct (onFailure_shape id env w1 th) as [_ [(Hw & Hd & _)|(a & Hl & Hw & Hd)]].
    - left. auto.
    - right. exists a, (failedUpdate th (t_catch env)). eauto 8. }
  destruct (outcome r0) as [e|[payload|msg]]; [apply Hfail| |apply Hfail].
  destruct (updateAnalysis _ _ _ _) as [e|[a' d']] eqn:Hu; [apply Hfail|].
  destruct (updateAnalysis_found _ _ _ _ _ _ Hu) as (a & Hl & -> & ->).
  right. simpl. eauto 10.
Qed.





(** With an error caught the task runs its [catch] block. *)
Lemma startAnalysis_caught id ct env w th :
  caught id ct env w = Some th ->
  startAnalysis id ct env w
  = onFailure id env
      (mkWorld (breaker_after (analyze ct (call env) (breaker w))) (docs w)) th.
Proof.
  rewrite startAnalysis_afterCall. unfold caught, afterCall.
  destruct (outcome (analyze ct (call env) (breaker w))) as [e0|[payload|msg]].
  - intros [= <-]. reflexivity.
  - destruct ct; simpl;
      (destruct (updateAnalysis _ _ _ _) as [e0|[a' d']]; [|discriminate]);
      intros [= <-]; reflexivity.
  - intros [= <-]. reflexivity.
Qed.

End ProcessorFacts.



(** What the task leaves when the engine answers 200 with the body [null]:
    reading [result.truthScore] throws, and the record is failed with the
    text of that TypeError as its [error]. *)
Example null_body_is_stored :
  let msg := "Cannot read properties of null (reading 'truthScore')" in
  let r := Processor.startAnalysis "a1" image
             (env_with (Gateway.Responded (Processor.Nullish msg))) fresh_world in
  exists a, Processor.docs (Processor.world_after r) !! "a1" = Some a /\
            Store.status a = Store.failed /\
            Store.error a = Some msg /\
            Gateway.failures (Processor.breaker (Processor.world_after r)) = 0.
Proof. eexists. split; [reflexivity|]. repeat split. Qed.



(** C4 (as stated, refuted): a Submission does not start as pending. The
    statement under the negation is the claim's first part: the record
    [createAnalysis] returns has the status named pending. It fails for
    every creation; the record of an uploaded image is shown. *)
Lemma created_status_is_not_pending :
  ~ (forall (id : string) (now shift : Z) (params : Store.CreateAnalysisParams)
            (d0 d1 : gmap string Store.Analysis) (a : Store.Analysis),
        Store.createAnalysis Store.DbOk id now shift params d0 = inr (a, d1) ->
        Store.status_name (Store.status a) = "pending").
Proof.
  intros H.
  specialize (H "a1" 0 0 upload_params ∅ _ _ eq_refl).
  discriminate H.
Qed.

(** C4 (amended): the code has no pending state. Every Submission is created
    with status processing; the task started for it applies at most one
    update to the store, and that update sets the status to completed or to
    failed. So the status of a Submission stays processing or moves once,
    forward, to completed or failed, and the task writes nothing after
    that. *)
Theorem status_lifecycle :
  forall (id : string) (now shift : Z) (params : Store.CreateAnalysisParams)
         (d0 d1 : gmap string Store.Analysis) (a : Store.Analysis)
         (ct : ContentType) (env : Processor.TaskEnv)
         (cb : Gateway.CircuitBreakerState),
    Store.createAnalysis Store.DbOk id now shift params d0 = inr (a, d1) ->
    let r := Processor.startAnalysis id ct env (Processor.mkWorld cb d1) in
    (forall s, Store.status_name s <> "pending") /\
    Store.status a = Store.processing /\
    ((Processor.writes r = [] /\ Processor.docs (Processor.world_after r) = d1) \/
     (exists u, Processor.writes r = [u] /\
                (Store.u_status u = Some Store.completed \/
                 Store.u_status u = Some Store.failed) /\
                Processor.docs (Processor.world_after r)
                = <[id := Store.apply_set u a]> d1)).
Proof.
  intros id now shift params d0 d1 a ct env cb Hc r. subst r.
  destruct (createAnalysis_ok _ _ _ _ _ _ _ Hc) as (Hs & _ & _ & Hl).
  split; [intros []; discriminate|]. split; [exact Hs|].
  destruct (startAnalysis_shape id ct env (Processor.mkWorld cb d1))
    as [Hnone | (a0 & u & Hl0 & Hw & Hd & Hu)]; [left; exact Hnone|].
  right. cbn [Processor.docs] in Hl0. rewrite Hl in Hl0. injection Hl0 as <-.
  exists u. split; [exact Hw|]. split; [|exact Hd].
  destruct Hu as [[res ->] | [e ->]]; [left | right]; reflexivity.
Qed.

Lemma status_lifecycle_witness :
  let r := Processor.startAnalysis "a1" image
             (env_with (Gateway.Responded (Processor.Object good_payload))) fresh_world in
  exists u, Processor.writes r = [u] /\
            Store.u_status u = Some Store.completed.
Proof.
  destruct (status_lifecycle "a1" 0 0 upload_params ∅ _ _ image
              (env_with (Gateway.Responded (Processor.Object good_payload)))
              Gateway.circuitBreaker eq_refl)
    as (_ & _ & [[Hw _] | (u & Hw & _ & _)]).
  - discriminate Hw.
  - exists u. split; [exact Hw|]. injection Hw as <-. reflexivity.
Defined.

(** C9: for every Submission record made by [createAnalysis] and handled by
    its task (image or video, whatever the engine and the database answer),
    the record satisfies the invariant at creation and after each update the
    task applies: [result] is present exactly when the status is completed,
    and [error] is present exactly when the status is failed. The record in
    the store at the end is the created one with those updates applied. *)
Theorem record_invariant :
  forall (id : string) (now shift : Z) (params : Store.CreateAnalysisParams)
         (d0 d1 : gmap string Store.Analysis) (a : Store.Analysis)
         (ct : ContentType) (env : Processor.TaskEnv)
         (cb : Gateway.CircuitBreakerState),
    Store.createAnalysis Store.DbOk id now shift params d0 = inr (a, d1) ->
    let r := Processor.startAnalysis id ct env (Processor.mkWorld cb d1) in
    (forall k, Store.record_ok
                 (Processor.replay (firstn k (Processor.writes r)) a)) /\
    Processor.docs (Processor.world_after r) !! id
    = Some (Processor.replay (Processor.writes r) a).
Proof.
  intros id now shift params d0 d1 a ct env cb Hc r. subst r.
  destruct (createAnalysis_ok _ _ _ _ _ _ _ Hc) as (Hs & Hr & He & Hl).
  assert (Store.record_ok a) as Hok.
  { unfold Store.record_ok. rewrite Hs, Hr, He.
    split; split; intros H; try discriminate H; destruct H; discriminate. }
  destruct (startAnalysis_shape id ct env (Processor.mkWorld cb d1))
    as [[Hw Hd] | (a0 & u & Hl0 & Hw & Hd & Hu)]; rewrite Hw.
  - split; [|rewrite Hd; exact Hl].
    intros k. rewrite firstn_nil. exact Hok.
  - cbn [Processor.docs] in Hl0. rewrite Hl in Hl0. injection Hl0 as <-.
    split; [|rewrite Hd; apply lookup_insert_eq].
    assert (Store.record_ok (Store.apply_set u a)) as Hok'.
    { unfold Store.record_ok.
      destruct Hu as [[res ->] | [e ->]]; cbn; rewrite ?Hr, ?He;
        split; split; intros H; try discriminate H; try reflexivity;
          try (eexists; reflexivity); destruct H; discriminate. }
    intros [|[|k]]; cbn; assumption.
Qed.

Lemma record_invariant_witness :
  let r := Processor.startAnalysis "a1" image
             (env_with (Gateway.AxiosFailed traceback_answer)) fresh_world in
  exists a', Processor.docs (Processor.world_after r) !! "a1" = Some a' /\
             Store.record_ok a' /\ Store.status a' = Store.failed.
Proof.
  destruct (record_invariant "a1" 0 0 upload_params ∅ _ _ image
              (env_with (Gateway.AxiosFailed traceback_answer))
              Gateway.circuitBreaker eq_refl) as [Hall Hl].
  eexists. split; [exact Hl|]. split; [exact (Hall 1%nat) | reflexivity].
Defined.

(* ===================================================================== *)
(** * Properties of the Score Aggregator and the Timeline Reducer *)
(* ===================================================================== *)

Section AggregatorFacts.
Import Aggregator.
Implicit Types (o : PerModelOutput) (os : list PerModelOutput).

Lemma baseWeight_pos m : (0 < baseWeight m)%Q.
Proof. destruct m; reflexivity. Qed.

Lemma effectiveWeight_nonneg o : in_range o -> (0 <= effectiveWeight o)%Q.
Proof.
  intros [_ [Hc _]]. unfold effectiveWeight.
  apply Qmult_le_0_compat; [apply Qlt_le_weak, baseWeight_pos | exact Hc].
Qed.

Lemma denom_nonneg os : Forall in_range os -> (0 <= denom os)%Q.
Proof.
  induction 1 as [|o os Ho _ IH]; simpl; [apply Qle_refl|].
  pose proof (effectiveWeight_nonneg o Ho). lra.
Qed.

Lemma numer_nonneg os : Forall in_range os -> (0 <= numer os)%Q.
Proof.
  induction 1 as [|o os Ho _ IH]; simpl; [apply Qle_refl|].
  pose proof (effectiveWeight_nonneg o Ho) as Hw.
  destruct Ho as [[Hs _] _].
  pose proof (Qmult_le_0_compat _ _ Hw Hs). lra.
Qed.

Lemma numer_le_denom os : Forall in_range os -> (numer os <= denom os)%Q.
Proof.
  induction 1 as [|o os Ho _ IH]; simpl; [apply Qle_refl|].
  pose proof (effectiveWeight_nonneg o Ho) as Hw.
  destruct Ho as [[Hs0 Hs1] _].
  assert (effectiveWeight o * score o <= effectiveWeight o * 1)%Q as H
    by (apply Qmult_le_compat_nonneg; split; (assumption || apply Qle_refl)).
  lra.
Qed.

Lemma denom_zero os :
  Forall (fun o => confidence o == 0)%Q os -> (denom os == 0)%Q.
Proof.
  induction 1 as [|o os Ho _ IH]; simpl; [reflexivity|].
  unfold effectiveWeight. rewrite Ho, IH. ring.
Qed.

Lemma round_bounds (x : Q) : (0 <= x <= 100)%Q -> 0 <= round x <= 100.
Proof.
  intros [H0 H1]. unfold round. split.
  - change 0 with (Qfloor 0). apply Qfloor_resp_le. lra.
  - change 100 with (Qfloor (100 + (1 # 2))). apply Qfloor_resp_le. lra.
Qed.

Lemma weighted_bounds os :
  Forall in_range os -> (0 < denom os)%Q -> 0 <= weighted os <= 100.
Proof.
  intros Hr Hd. unfold weighted. apply round_bounds.
  pose proof (numer_nonneg os Hr). pose proof (numer_le_denom os Hr).
  split.
  - apply Qle_shift_div_l; [exact Hd | lra].
  - apply Qle_shift_div_r; [exact Hd | lra].
Qed.

Lemma aggregate_positive os :
  (0 < denom os)%Q -> aggregate os = clamp (weighted os).
Proof.
  intros Hd. unfold aggregate.
  destruct (Qle_bool (denom os) 0) eqn:Hb; [|reflexivity].
  apply Qle_bool_iff in Hb. lra.
Qed.

Lemma aggregate_neutral os : (denom os <= 0)%Q -> aggregate os = 50.
Proof.
  intros Hd. unfold aggregate.
  apply Qle_bool_iff in Hd. rewrite Hd. reflexivity.
Qed.

Lemma clamp_id z : 0 <= z <= 100 -> clamp z = z.
Proof. unfold clamp. lia. Qed.

Lemma aggregate_bounds os : 0 <= aggregate os <= 100.
Proof.
  unfold aggregate. destruct (Qle_bool (denom os) 0); [lia|].
  unfold clamp. lia.
Qed.

End AggregatorFacts.

(** With the confidences left out of the weights the scenario gives 89. *)
Example scenario_base_weights_only :
  Aggregator.aggregate (Aggregator.full_confidence Aggregator.scenario) = 89.
Proof. vm_compute. reflexivity. Qed.

Example scenario_sums :
  (Aggregator.numer Aggregator.scenario == 8125 # 10000)%Q /\
  (Aggregator.denom Aggregator.scenario == 9 # 10)%Q.
Proof. split; reflexivity. Qed.

(** On the scenario input the formula, with the weights scaled by the
    confidences, does not give 89. *)
Lemma scenario_is_not_89 : Aggregator.aggregate Aggregator.scenario <> 89.
Proof. vm_compute. discriminate. Qed.

(** On the scenario input, with the base weights 0.30, 0.25, 0.20, 0.15,
    0.10 scaled by the confidences, the weighted sum is 0.8125 over a
    denominator of 0.9, and the formula gives 90; the base weights alone
    give 89 (see [scenario_base_weights_only]). *)
Theorem scenario_truth_score : Aggregator.aggregate Aggregator.scenario = 90.
Proof. vm_compute. reflexivity. Qed.

(** C7: for every list of per-model outputs with scores and confidences in
    [0,1], the aggregator returns an integer in [0,100]; when the
    denominator Σ baseWeight_i * confidence_i is positive this integer is
    round (100 * Σ (baseWeight_i * confidence_i * score_i) / Σ (baseWeight_i *
    confidence_i)), the clamp changing nothing; and when every confidence is
    0 it is exactly 50. *)
Theorem aggregate_in_range :
  forall os : list Aggregator.PerModelOutput,
    Forall Aggregator.in_range os ->
    0 <= Aggregator.aggregate os <= 100 /\
    ((0 < Aggregator.denom os)%Q ->
     Aggregator.aggregate os
     = Aggregator.round (100 * Aggregator.numer os / Aggregator.denom os)) /\
    (Forall (fun o => Aggregator.confidence o == 0)%Q os ->
     Aggregator.aggregate os = 50).
Proof.
  intros os Hr. split; [apply aggregate_bounds|]. split.
  - intros Hd. rewrite (aggregate_positive os Hd).
    apply clamp_id. apply weighted_bounds; assumption.
  - intros Hz. apply aggregate_neutral.
    rewrite (denom_zero os Hz). apply Qle_refl.
Qed.

Lemma aggregate_in_range_witness :
  (0 <= Aggregator.aggregate Aggregator.scenario <= 100 /\
   Aggregator.aggregate Aggregator.scenario
   = Aggregator.round (100 * Aggregator.numer Aggregator.scenario
                       / Aggregator.denom Aggregator.scenario)) /\
  Aggregator.aggregate all_neutral = 50.
Proof.
  split.
  - destruct (aggregate_in_range Aggregator.scenario) as (Hb & Hpos & _).
    + repeat constructor; vm_compute; discriminate.
    + split; [exact Hb|]. apply Hpos. reflexivity.
  - destruct (aggregate_in_range all_neutral) as (_ & _ & Hz).
    + repeat constructor; vm_compute; discriminate.
    + apply Hz. repeat constructor.
Defined.

Section TimelineFacts.
Import Aggregator Timeline.

Lemma entries_scores (scored : list (Q * Z)) : forall i,
  map frameScore (entries i scored) = map snd scored.
Proof.
  induction scored as [|[t s] rest IH]; intros i; simpl; [reflexivity|].
  rewrite IH. reflexivity.
Qed.

Lemma entries_index (scored : list (Q * Z)) : forall i,
  map frameIndex (entries i scored) = seq i (length scored).
Proof.
  induction scored as [|[t s] rest IH]; intros i; simpl; [reflexivity|].
  rewrite IH. reflexivity.
Qed.

Lemma entries_times (scored : list (Q * Z)) : forall i,
  map timestampSec (entries i scored) = map fst scored.
Proof.
  induction scored as [|[t s] rest IH]; intros i; simpl; [reflexivity|].
  rewrite IH. reflexivity.
Qed.

Lemma entries_suspicious (scored : list (Q * Z)) : forall i,
  Forall (fun e => suspicious e = true <-> frameScore e < 50) (entries i scored).
Proof.
  induction scored as [|[t s] rest IH]; intros i; simpl; constructor.
  - simpl. unfold SUSPICIOUS_BELOW. apply Z.ltb_lt.
  - apply IH.
Qed.

Lemma mean_times_length (xs : list Z) :
  xs <> [] ->
  (mean xs * inject_Z (Z.of_nat (length xs)) == inject_Z (sumZ xs))%Q.
Proof.
  intros Hne. unfold mean. field.
  destruct xs as [|x xs]; [congruence|].
  intros H. cbn [length] in H.
  unfold Qeq in H. cbn [inject_Z Qnum Qden] in H. lia.
Qed.

End TimelineFacts.

(** The three frames of the scenario, each scored by the aggregator. *)
Example three_frames_reduced :
  let r := Timeline.reduce [] three_frames in
  map Timeline.frameScore (Timeline.timeline r) = [80; 40; 90] /\
  map Timeline.suspicious (Timeline.timeline r) = [false; true; false] /\
  (Timeline.truthScore r == 70)%Q.
Proof. vm_compute. repeat split. Qed.

(** No frame extracted: one entry, at second 0, for the video as a whole. *)
Example no_frames_reduced :
  let r := Timeline.reduce Aggregator.scenario [] in
  map Timeline.frameScore (Timeline.timeline r) = [90] /\
  map Timeline.frameIndex (Timeline.timeline r) = [0%nat] /\
  (Timeline.truthScore r == 90)%Q.
Proof. vm_compute. repeat split. Qed.

(** C8: the reducer gives one timeline entry per frame (one for the whole
    video when no frame was extracted), in order, each carrying the
    aggregator's score of its frame; an entry is suspicious exactly when its
    frameScore is below 50; and the video-level truthScore is the unweighted
    mean of the frameScores (times their number, it is their sum). In
    particular frame scores 80, 40, 90 give a timeline of 3 entries, indexed
    0, 1, 2, of which only index 1 is suspicious, and truthScore 70. *)
Theorem timeline_reducer :
  forall (whole : list Aggregator.PerModelOutput) (frames : list Timeline.Frame),
    let r := Timeline.reduce whole frames in
    let fs := match frames with
              | [] => [Timeline.mkFrame 0 whole]
              | _ :: _ => frames
              end in
    let scores := map (fun f => Aggregator.aggregate (Timeline.outputs f)) fs in
    map Timeline.frameScore (Timeline.timeline r) = scores /\
    map Timeline.frameIndex (Timeline.timeline r) = seq 0 (length fs) /\
    Forall (fun e => Timeline.suspicious e = true <-> Timeline.frameScore e < 50)
           (Timeline.timeline r) /\
    (Timeline.truthScore r * inject_Z (Z.of_nat (length scores))
     == inject_Z (Timeline.sumZ scores))%Q /\
    (forall t0 t1 t2 : Q,
        let r3 := Timeline.reduceScores [(t0, 80); (t1, 40); (t2, 90)] in
        length (Timeline.timeline r3) = 3%nat /\
        map Timeline.frameIndex (Timeline.timeline r3) = [0; 1; 2]%nat /\
        map Timeline.suspicious (Timeline.timeline r3) = [false; true; false] /\
        (Timeline.truthScore r3 == 70)%Q).
Proof.
  intros whole frames r fs scores.
  assert (r = Timeline.reduceScores (map Timeline.scoreFrame fs)) as Hr
    by (subst r fs; destruct frames; reflexivity).
  assert (map snd (map Timeline.scoreFrame fs) = scores) as Hs
    by (subst scores; rewrite map_map; reflexivity).
  assert (fs <> []) as Hne by (subst fs; destruct frames; discriminate).
  rewrite Hr. cbn [Timeline.reduceScores Timeline.timeline Timeline.truthScore].
  split; [rewrite entries_scores; exact Hs|].
  split; [rewrite entries_index, length_map; reflexivity|].
  split; [apply entries_suspicious|].
  split.
  - rewrite Hs. apply mean_times_length.
    subst scores. destruct fs; [congruence | discriminate].
  - intros t0 t1 t2. cbn. repeat split.
Qed.

(* ===================================================================== *)
(** * Further properties of the Gateway *)
(* ===================================================================== *)

Section BreakerFacts.
Import Errors Gateway Recording.
Implicit Types (cb : CircuitBreakerState).

Lemma closed_below_step cb cb' :
  closed_below cb -> BreakerStep cb cb' -> closed_below cb'.
Proof.
  unfold closed_below, CIRCUIT_BREAKER_THRESHOLD.
  intros [H0 Hc] Hstep. destruct Hstep as [now cb cb' Hk | now cb | now cb].
  - destruct (check_inr _ _ _ Hk) as (Hf & _ & [Hs | [Hs Hs']]); rewrite Hf.
    + rewrite Hs. auto.
    + split; [assumption|]. rewrite Hs'. rewrite Hs in Hc.
      split; [discriminate|]. intros Hlt. apply Hc in Hlt. discriminate.
  - unfold recordFailure, CIRCUIT_BREAKER_THRESHOLD. simpl. split; [lia|].
    destruct (Z.geb_spec (failures cb + 1) 5) as [Hge|Hlt].
    + split; [discriminate | lia].
    + split; [intros _; exact Hlt|]. intros _. apply Hc. lia.
  - unfold recordSuccess. destruct (state cb) eqn:Hs; simpl.
    + destruct (_ >? _); simpl; [split; [lia|]; split; [lia | reflexivity]|].
      rewrite Hs. auto.
    + rewrite Hs. auto.
    + split; [lia|]. split; [lia | reflexivity].
Qed.

Lemma record_all_app evs1 evs2 cb :
  record_all (evs1 ++ evs2) cb = record_all evs2 (record_all evs1 cb).
Proof. unfold record_all. apply fold_left_app. Qed.

(** Once OPEN, recordings keep the breaker OPEN and count the failures. *)
Lemma record_all_open evs : forall cb,
  state cb = OPEN ->
  state (record_all evs cb) = OPEN /\
  failures (record_all evs cb) = failures cb + count_failures evs.
Proof.
  unfold count_failures.
  induction evs as [|[t|t] evs IH]; intros cb Hs; cbn [record_all fold_left List.filter is_failure].
  - split; [assumption | simpl; lia].
  - destruct (IH (record (Failure t) cb)) as [Hs' Hf'].
    { exact (recordFailure_open t cb Hs). }
    fold (record_all evs (record (Failure t) cb)).
    split; [exact Hs'|]. rewrite Hf'. cbn [record length]. rewrite recordFailure_failures. lia.
  - assert (record (Success t) cb = cb) as ->
      by (simpl; unfold recordSuccess; rewrite Hs; reflexivity).
    apply IH. assumption.
Qed.

End BreakerFacts.

Section RecordingFacts.
Import Errors Gateway Recording.
Implicit Types (cb : CircuitBreakerState).

Lemma count_failures_nonneg evs : 0 <= count_failures evs.
Proof. unfold count_failures. lia. Qed.

Lemma count_failures_cons ev evs :
  count_failures (ev :: evs)
  = (if is_failure ev then 1 else 0) + count_failures evs.
Proof.
  unfold count_failures. cbn [List.filter].
  destruct (is_failure ev); cbn [length]; lia.
Qed.

Lemma record_all_cons ev evs cb :
  record_all (ev :: evs) cb = record_all evs (record ev cb).
Proof. reflexivity. Qed.

(** From CLOSED, with every success a quick one, nothing is forgotten. *)
Lemma record_all_quick evs : forall cb,
  state cb = CLOSED ->
  quick (lastFailureTime cb) evs ->
  failures (record_all evs cb) = failures cb + count_failures evs /\
  (0 < count_failures evs ->
   CIRCUIT_BREAKER_THRESHOLD <= failures cb + count_failures evs ->
   state (record_all evs cb) = OPEN) /\
  (failures cb + count_failures evs < CIRCUIT_BREAKER_THRESHOLD ->
   state (record_all evs cb) = CLOSED).
Proof.
  unfold CIRCUIT_BREAKER_THRESHOLD.
  induction evs as [|[t|t] evs IH]; intros cb Hs Hq.
  - unfold count_failures. simpl. split; [lia|]. split; [lia | auto].
  - rewrite record_all_cons, count_failures_cons. cbn [is_failure record].
    pose proof (count_failures_nonneg evs) as Hn.
    destruct (Z.geb_spec (failures cb + 1) 5) as [Hge|Hlt].
    + assert (state (recordFailure t cb) = OPEN) as Ho
        by (apply recordFailure_threshold; exact Hge).
      destruct (record_all_open evs _ Ho) as [Hs' Hf'].
      rewrite Hf', recordFailure_failures.
      split; [lia|]. split; [intros _ _; exact Hs' | lia].
    + assert (state (recordFailure t cb) = CLOSED) as Hc.
      { unfold recordFailure, CIRCUIT_BREAKER_THRESHOLD. simpl.
        destruct (Z.geb_spec (failures cb + 1) 5); [lia | exact Hs]. }
      destruct (IH (recordFailure t cb) Hc Hq) as (Hf' & Hopen & Hclosed).
      rewrite recordFailure_failures in Hf', Hopen, Hclosed.
      split; [lia|]. split.
      * intros _ H5. apply Hopen; lia.
      * intros H5. apply Hclosed. lia.
  - rewrite record_all_cons, count_failures_cons. cbn [is_failure record].
    destruct Hq as [Ht Hq].
    assert (recordSuccess t cb = cb) as ->.
    { unfold recordSuccess, CIRCUIT_BREAKER_RESET_TIMEOUT in *. rewrite Hs.
      destruct (Z.gtb_spec (t - lastFailureTime cb) 30000); [lia | reflexivity]. }
    destruct (IH cb Hs Hq) as (Hf' & Hopen & Hclosed).
    split; [lia|]. split; [exact Hopen | exact Hclosed].
Qed.

Lemma quick_failures ts : forall last, quick last (map Failure ts).
Proof. induction ts as [|t ts IH]; intros last; simpl; auto. Qed.

Lemma count_failures_map ts :
  count_failures (map Failure ts) = Z.of_nat (length ts).
Proof.
  unfold count_failures. f_equal.
  induction ts as [|t ts IH]; simpl; [reflexivity | rewrite IH; reflexivity].
Qed.

End RecordingFacts.

(** X1: in every state the breaker can reach, through any interleaving of
    checks and recordings at any clock readings, the failure counter is not
    negative and the breaker is CLOSED exactly when the counter is below the
    threshold of 5. *)
Theorem breaker_closed_iff_below_threshold :
  forall cb : Gateway.CircuitBreakerState,
    Gateway.Reachable cb -> Recording.closed_below cb.
Proof.
  induction 1 as [|cb cb' _ IH Hstep].
  - split; [reflexivity|]. split; [reflexivity | intros _; reflexivity].
  - eapply closed_below_step; eassumption.
Qed.

Lemma breaker_closed_iff_below_threshold_witness :
  Recording.closed_below tripped.
Proof.
  apply (breaker_closed_iff_below_threshold tripped tripped_reachable).
Defined.

(** X2: on a CLOSED breaker, as long as every success is recorded within
    30000 ms of the failure recorded before it, successes change nothing:
    the counter ends at its start value plus the number of failures
    recorded, whether or not successes came between them, and the breaker
    ends OPEN as soon as that sum reaches 5 (CLOSED while it is below). The
    failures that open the breaker need not be consecutive. *)
Theorem quick_successes_do_not_reset :
  forall (evs : list Recording.Recorded) (cb : Gateway.CircuitBreakerState),
    Gateway.state cb = Gateway.CLOSED ->
    Recording.quick (Gateway.lastFailureTime cb) evs ->
    let cb' := Recording.record_all evs cb in
    Gateway.failures cb' = Gateway.failures cb + Recording.count_failures evs /\
    (0 < Recording.count_failures evs ->
     Gateway.CIRCUIT_BREAKER_THRESHOLD
     <= Gateway.failures cb + Recording.count_failures evs ->
     Gateway.state cb' = Gateway.OPEN) /\
    (Gateway.failures cb + Recording.count_failures evs
     < Gateway.CIRCUIT_BREAKER_THRESHOLD ->
     Gateway.state cb' = Gateway.CLOSED).
Proof. intros evs cb Hs Hq. apply record_all_quick; assumption. Qed.

Lemma quick_successes_do_not_reset_witness :
  let evs := [Recording.Failure 0; Recording.Success 100; Recording.Failure 200;
              Recording.Success 300; Recording.Failure 400; Recording.Success 500;
              Recording.Failure 600; Recording.Success 20000;
              Recording.Failure 30000] in
  Gateway.failures (Recording.record_all evs Gateway.circuitBreaker) = 5 /\
  Gateway.state (Recording.record_all evs Gateway.circuitBreaker) = Gateway.OPEN.
Proof.
  destruct (quick_successes_do_not_reset
              [Recording.Failure 0; Recording.Success 100; Recording.Failure 200;
               Recording.Success 300; Recording.Failure 400; Recording.Success 500;
               Recording.Failure 600; Recording.Success 20000;
               Recording.Failure 30000]
              Gateway.circuitBreaker eq_refl) as (Hf & Ho & _).
  - vm_compute. repeat split; discriminate.
  - split; [exact Hf|]. apply Ho; vm_compute; [reflexivity | discriminate].
Defined.

(** X3: on a CLOSED breaker a success recorded more than 30000 ms after the
    last failure forgets the failures counted so far: after it the counter
    equals the number of failures recorded since, and the breaker is OPEN
    exactly when five or more were recorded. *)
Theorem stale_failures_are_forgotten :
  forall (cb : Gateway.CircuitBreakerState) (now : Z) (ts : list Z),
    Gateway.state cb = Gateway.CLOSED ->
    now - Gateway.lastFailureTime cb > Gateway.CIRCUIT_BREAKER_RESET_TIMEOUT ->
    let cb' := Recording.record_all
                 (Recording.Success now :: map Recording.Failure ts) cb in
    Gateway.failures cb' = Z.of_nat (length ts) /\
    (Gateway.state cb' = Gateway.OPEN <-> (5 <= length ts)%nat).
Proof.
  intros cb now ts Hs Ht cb'. subst cb'. rewrite record_all_cons.
  cbn [Recording.record].
  assert (Gateway.recordSuccess now cb
          = Gateway.mkBreaker 0 (Gateway.lastFailureTime cb) Gateway.CLOSED) as ->.
  { unfold Gateway.recordSuccess, Gateway.CIRCUIT_BREAKER_RESET_TIMEOUT in *.
    rewrite Hs.
    destruct (Z.gtb_spec (now - Gateway.lastFailureTime cb) 30000); [reflexivity | lia]. }
  destruct (record_all_quick (map Recording.Failure ts)
              (Gateway.mkBreaker 0 (Gateway.lastFailureTime cb) Gateway.CLOSED)
              eq_refl (quick_failures ts _)) as (Hf & Ho & Hc).
  rewrite count_failures_map in Hf, Ho, Hc. cbn [Gateway.failures] in Hf, Ho, Hc.
  unfold Gateway.CIRCUIT_BREAKER_THRESHOLD in *.
  split; [lia|]. split.
  - intros Hopen. destruct (Nat.le_gt_cases 5 (length ts)) as [H|H]; [exact H|].
    rewrite Hc in Hopen by lia. discriminate.
  - intros H5. apply Ho; lia.
Qed.

Lemma stale_failures_are_forgotten_witness :
  let cb := Gateway.mkBreaker 4 1000 Gateway.CLOSED in
  Gateway.failures (Recording.record_all
     [Recording.Success 31001; Recording.Failure 31500] cb) = 1 /\
  Gateway.state (Recording.record_all
     [Recording.Success 31001; Recording.Failure 31500] cb) <> Gateway.OPEN.
Proof.
  destruct (stale_failures_are_forgotten
              (Gateway.mkBreaker 4 1000 Gateway.CLOSED) 31001 [31500]
              eq_refl eq_refl) as [Hf Ho].
  split; [exact Hf|]. intros H. apply Ho in H. simpl in H. lia.
Defined.

(** The same failure at 31500 after a success at 31000, one millisecond
    earlier, opens the breaker. *)
Example fresh_failures_are_kept :
  Gateway.state (Recording.record_all
     [Recording.Success 31000; Recording.Failure 31500]
     (Gateway.mkBreaker 4 1000 Gateway.CLOSED)) = Gateway.OPEN.
Proof. reflexivity. Qed.



Ltac split_all :=
  repeat match goal with
         | |- _ /\ _ => split
         | |- _ <-> _ => split
         | |- forall _, _ => intro
         end.

Ltac crush :=
  repeat match goal with
         | H : _ /\ _ |- _ => destruct H
         | H : _ \/ _ |- _ => destruct H
         | H : exists _, _ |- _ => destruct H
         | H : Some _ = Some _ |- _ => injection H as H; subst
         | H : _ = _ |- _ => discriminate H
         end;
  try contradiction; try lia; try tauto; eauto.

(** X5: [mapAIEngineError] gives one of six (status, code) pairs and no
    other. A timeout or refusal code on the axios error decides alone (408 or
    503), even when a response came with it; 400 INVALID_CONTENT is given
    exactly for a response with status 400 and no such code; and a response
    with any status other than 400, 413 and 500 (404 or 503, say) is
    reported as 500 AI_ENGINE_ERROR. *)
Theorem mapped_error_kinds :
  forall e : Errors.AxiosError,
    let m := Errors.mapAIEngineError e in
    In (Errors.statusCode m, Errors.code m) Recording.mapped_kinds /\
    (Gateway.is_timeout_or_refused e = true <->
     Errors.statusCode m = 408 \/ Errors.statusCode m = 503) /\
    (Errors.statusCode m = 400 <->
     Gateway.is_timeout_or_refused e = false /\
     exists r, Errors.ax_response e = Some r /\ Errors.resp_status r = 400) /\
    (forall r, Gateway.is_timeout_or_refused e = false ->
               Errors.ax_response e = Some r ->
               Errors.resp_status r <> 400 ->
               Errors.resp_status r <> 413 ->
               Errors.resp_status r <> 500 ->
               Errors.statusCode m = 500 /\ Errors.code m = "AI_ENGINE_ERROR").
Proof.
  intros e m. subst m.
  unfold Errors.mapAIEngineError, Gateway.is_timeout_or_refused.
  destruct (Errors.code_is e "ECONNABORTED" || Errors.code_is e "ETIMEDOUT");
    [cbn; split_all; crush|].
  destruct (Errors.code_is e "ECONNREFUSED"); [cbn; split_all; crush|].
  cbn [orb].
  destruct (Errors.ax_response e) as [r|]; [|cbn; split_all; crush].
  destruct (Z.eqb_spec (Errors.resp_status r) 400) as [E4|N4];
    [cbn; split_all; crush|].
  destruct (Z.eqb_spec (Errors.resp_status r) 413) as [E3|N3];
    [cbn; split_all; crush|].
  destruct (Z.eqb_spec (Errors.resp_status r) 500) as [E5|N5];
    cbn; split_all; crush.
Qed.

(** A 400 answer that arrives with a timeout code is reported as a timeout. *)
Example timeout_hides_bad_request :
  let m := Errors.mapAIEngineError
             (Errors.mkAxiosError (Some "ECONNABORTED")
                (Errors.ax_response bad_request) "timeout of 120000ms exceeded") in
  (Errors.statusCode m, Errors.code m) = (408, "ANALYSIS_TIMEOUT").
Proof. reflexivity. Qed.

(** X6: the Gateway sends no request in exactly two cases: the breaker is
    OPEN and the call starts within 60000 ms of the last failure, or building
    the request threw. A CLOSED or HALF_OPEN breaker never turns a call
    away, and HALF_OPEN puts no bound on how many calls it lets through. *)
Theorem request_sent_unless_open :
  forall (R : Type) (ct : ContentType) (c : Gateway.Call R)
         (cb : Gateway.CircuitBreakerState),
    Gateway.contacted (Gateway.analyze ct c cb) = false <->
    (Gateway.state cb = Gateway.OPEN /\
     Gateway.t_check c - Gateway.lastFailureTime cb
     <= Gateway.CIRCUIT_BREAKER_TIMEOUT) \/
    Gateway.post c = Gateway.FormError.
Proof.
  intros R ct c cb. rewrite analyze_analyzeImage.
  unfold Gateway.analyzeImage, Gateway.checkCircuitBreaker.
  destruct (Gateway.state cb) eqn:Hs.
  - destruct (Gateway.post c); cbn; split; auto; try discriminate;
      intros [[H _]|H]; discriminate.
  - destruct (Z.gtb_spec (Gateway.t_check c - Gateway.lastFailureTime cb)
                Gateway.CIRCUIT_BREAKER_TIMEOUT) as [Hgt|Hle].
    + destruct (Gateway.post c); cbn; split; auto; try discriminate;
        intros [[_ H]|H]; try discriminate; lia.
    + cbn. split; auto.
  - destruct (Gateway.post c); cbn; split; auto; try discriminate;
      intros [[H _]|H]; discriminate.
Qed.

(* ===================================================================== *)
(** * Further properties of the Status Store and its listings *)
(* ===================================================================== *)

Section ServiceFacts.
Import Errors Store Service.
Implicit Types (a : Analysis) (d : gmap string Analysis)
  (u : UpdateAnalysisParams).

Lemma apply_set_twice u a : apply_set u (apply_set u a) = apply_set u a.
Proof.
  unfold apply_set. cbn.
  destruct (u_status u), (u_result u), (u_error u), (u_completedAt u); reflexivity.
Qed.

Lemma or_number_nonzero n b : n <> 0 -> or_number (Some n) b = n.
Proof.
  intros Hn. unfold or_number.
  destruct (Z.eqb_spec n 0); [contradiction | reflexivity].
Qed.

Lemma paginate_valid srv matching p l :
  answer srv = DbOk -> 1 <= p -> 1 <= l ->
  paginate srv matching (mkPagination (Some p) (Some l))
  = inr {| analyses :=
             map project (firstn (Z.to_nat l) (skipn (Z.to_nat ((p - 1) * l)) matching));
           total := Z.of_nat (length matching);
           page := p;
           totalPages := ceil_div (Z.of_nat (length matching)) l |}.
Proof.
  intros Hdb Hp Hl. unfold paginate. cbn [pg_page pg_limit].
  rewrite !or_number_nonzero by lia. rewrite Hdb.
  destruct (Z.ltb_spec ((p - 1) * l) 0) as [Hneg|_]; [nia|].
  unfold skip_limit.
  destruct (Z.eqb_spec l 0); [lia|].
  rewrite Z.abs_eq by lia. reflexivity.
Qed.

Lemma ceil_div_bounds t l :
  0 <= t -> 1 <= l ->
  0 <= ceil_div t l /\ t <= ceil_div t l * l < t + l.
Proof.
  intros Ht Hl. unfold ceil_div.
  pose proof (Z.div_mod (- t) l ltac:(lia)) as Hdm.
  pose proof (Z.mod_pos_bound (- t) l ltac:(lia)) as Hm.
  split; nia.
Qed.

Lemma firstn_plus {A} (xs : list A) : forall m n,
  firstn (m + n) xs = firstn m xs ++ firstn n (skipn m xs).
Proof.
  induction xs as [|x xs IH]; intros m n.
  - rewrite !firstn_nil, skipn_nil, firstn_nil. reflexivity.
  - destruct m as [|m]; [reflexivity|]. cbn. rewrite IH. reflexivity.
Qed.

Lemma lookup_add_group s s' n (m : gmap string Z) :
  add_group s n m !! status_name s'
  = if status_eqb s s' && negb (n =? 0) then Some n else m !! status_name s'.
Proof.
  unfold add_group. destruct (n =? 0).
  - rewrite andb_false_r. reflexivity.
  - rewrite andb_true_r.
    destruct s, s'; cbn [status_eqb status_name];
      first [apply lookup_insert_eq | apply lookup_insert_ne; discriminate].
Qed.

Lemma count_status_sum (ds : list (string * Analysis)) :
  count_status processing ds + count_status completed ds + count_status failed ds
  = Z.of_nat (length ds).
Proof.
  unfold count_status.
  induction ds as [|[i a] ds IH]; [reflexivity|].
  cbn [List.filter snd]. destruct (status a); cbn [status_eqb length]; lia.
Qed.

Lemma count_status_nonneg s (ds : list (string * Analysis)) :
  0 <= count_status s ds.
Proof. unfold count_status. lia. Qed.

End ServiceFacts.

(** X7: after an update that succeeds, looking the id up gives the updated
    record; no other record of the store changes; and on the record itself
    an update never changes who owns it, where it came from, its file, its
    thumbnail, its creation or expiry time, and never clears a result, an
    error or a completion time that was there. *)
Theorem update_then_find :
  forall (db : Store.DbOutcome) (id : string) (u : Store.UpdateAnalysisParams)
         (d d' : gmap string Store.Analysis) (a' : Store.Analysis),
    Store.updateAnalysis db id u d = inr (a', d') ->
    Store.findAnalysisById Store.DbOk id d' = inr (Some a') /\
    (forall id', id' <> id -> d' !! id' = d !! id') /\
    exists a,
      d !! id = Some a /\
      Store.userId a' = Store.userId a /\
      Store.contentType a' = Store.contentType a /\
      Store.sourceType a' = Store.sourceType a /\
      Store.sourceUrl a' = Store.sourceUrl a /\
      Store.filePath a' = Store.filePath a /\
      Store.thumbnail a' = Store.thumbnail a /\
      Store.createdAt a' = Store.createdAt a /\
      Store.expiresAt a' = Store.expiresAt a /\
      (is_Some (Store.result a) -> is_Some (Store.result a')) /\
      (is_Some (Store.error a) -> is_Some (Store.error a')) /\
      (is_Some (Store.completedAt a) -> is_Some (Store.completedAt a')).
Proof.
  intros db id u d d' a' Hu.
  destruct (updateAnalysis_found _ _ _ _ _ _ Hu) as (a & Hl & -> & ->).
  split; [cbn; rewrite lookup_insert_eq; reflexivity|].
  split; [intros id' Hne; apply lookup_insert_ne; congruence|].
  exists a. split; [exact Hl|]. cbn.
  repeat (split; [reflexivity|]).
  split; [|split]; intros [x Hx]; rewrite Hx;
    [destruct (Store.u_result u) | destruct (Store.u_error u)
     | destruct (Store.u_completedAt u)]; eauto.
Qed.

Lemma update_then_find_witness :
  exists a' d',
    Store.updateAnalysis Store.DbOk "a1"
      (Processor.failedUpdate (Processor.ThrownCustom Gateway.unexpected) 2001)
      (Processor.docs fresh_world) = inr (a', d') /\
    Store.findAnalysisById Store.DbOk "a1" d' = inr (Some a') /\
    Store.filePath a' = "uploads/cat.jpg".
Proof.
  eexists. eexists. split; [reflexivity|].
  destruct (update_then_find Store.DbOk "a1"
              (Processor.failedUpdate (Processor.ThrownCustom Gateway.unexpected) 2001)
              (Processor.docs fresh_world) _ _ eq_refl) as (Hf & _ & _).
  split; [exact Hf | reflexivity].
Defined.

(** X8: an update is idempotent: applying the same update again to the
    store it produced succeeds and gives the same record and the same
    store. *)
Theorem update_idempotent :
  forall (db : Store.DbOutcome) (id : string) (u : Store.UpdateAnalysisParams)
         (d d' : gmap string Store.Analysis) (a' : Store.Analysis),
    Store.updateAnalysis db id u d = inr (a', d') ->
    Store.updateAnalysis Store.DbOk id u d' = inr (a', d').
Proof.
  intros db id u d d' a' Hu.
  destruct (updateAnalysis_found _ _ _ _ _ _ Hu) as (a & Hl & -> & ->).
  unfold Store.updateAnalysis. rewrite lookup_insert_eq.
  rewrite apply_set_twice, insert_insert_eq. reflexivity.
Qed.

Lemma update_idempotent_witness :
  let u := Processor.failedUpdate (Processor.ThrownCustom Gateway.unexpected) 2001 in
  exists a' d',
    Store.updateAnalysis Store.DbOk "a1" u (Processor.docs fresh_world)
    = inr (a', d') /\
    Store.updateAnalysis Store.DbOk "a1" u d' = inr (a', d').
Proof.
  eexists. eexists. split; [reflexivity|].
  apply (update_idempotent Store.DbOk "a1"
           (Processor.failedUpdate (Processor.ThrownCustom Gateway.unexpected) 2001)
           (Processor.docs fresh_world) _ _ eq_refl).
Defined.

(** X9: a delete that succeeds removes exactly the record that was there:
    the id is then not found, a later update or delete of it fails with
    404 NOT_FOUND, and every other record is untouched. Deleting an id that
    is not in the store fails with 404 NOT_FOUND as well. *)
Theorem delete_then_find :
  forall (db : Store.DbOutcome) (id : string)
         (d d' : gmap string Store.Analysis),
    Service.deleteAnalysis db id d = inr d' ->
    is_Some (d !! id) /\
    Store.findAnalysisById Store.DbOk id d' = inr None /\
    (forall id', id' <> id -> d' !! id' = d !! id') /\
    (forall u, exists e,
        Store.updateAnalysis Store.DbOk id u d' = inl e /\
        Errors.statusCode e = 404 /\ Errors.code e = "NOT_FOUND") /\
    (exists e,
        Service.deleteAnalysis Store.DbOk id d' = inl e /\
        Errors.statusCode e = 404 /\ Errors.code e = "NOT_FOUND").
Proof.
  intros db id d d'. unfold Service.deleteAnalysis.
  destruct db; [|discriminate].
  destruct (d !! id) as [a|] eqn:Hl; [|discriminate].
  intros [= <-].
  split; [eauto|].
  split; [cbn; rewrite lookup_delete_eq; reflexivity|].
  split; [intros id' Hne; apply lookup_delete_ne; congruence|].
  split.
  - intros u. unfold Store.updateAnalysis. rewrite lookup_delete_eq.
    eexists. split; [reflexivity|]. split; reflexivity.
  - rewrite lookup_delete_eq. eexists. split; [reflexivity|]. split; reflexivity.
Qed.

Lemma delete_then_find_witness :
  exists d',
    Service.deleteAnalysis Store.DbOk "a1" (Processor.docs fresh_world) = inr d' /\
    Store.findAnalysisById Store.DbOk "a1" d' = inr None.
Proof.
  eexists. split; [reflexivity|].
  destruct (delete_then_find Store.DbOk "a1" (Processor.docs fresh_world) _ eq_refl)
    as (_ & Hf & _).
  exact Hf.
Defined.

Section ListingFacts.
Import Errors Store Service.

Lemma In_skip_limit {A} (s l : Z) (xs : list A) (x : A) :
  In x (skip_limit s l xs) -> In x xs.
Proof.
  unfold skip_limit. intros H.
  apply list_elem_of_In. apply list_elem_of_In in H.
  apply (subseteq_drop (Z.to_nat s)).
  destruct (l =? 0); [exact H|]. eapply subseteq_take; exact H.
Qed.

Lemma length_skip_limit {A} (s l : Z) (xs : list A) :
  0 <= s -> 1 <= l ->
  Z.of_nat (length (skip_limit s l xs))
  = Z.min l (Z.max 0 (Z.of_nat (length xs) - s)).
Proof.
  intros Hs Hl. unfold skip_limit.
  destruct (Z.eqb_spec l 0); [lia|].
  rewrite length_take, length_drop. lia.
Qed.

Lemma pages_upto_firstn srv (matching : list (string * Analysis)) l n :
  answer srv = DbOk -> 1 <= l ->
  pages_upto srv matching l n
  = map project (firstn (n * Z.to_nat l) matching).
Proof.
  intros Hdb Hl. unfold pages_upto.
  induction n as [|n IH]; [reflexivity|].
  rewrite seq_S, flat_map_app, IH. cbn [flat_map].
  rewrite paginate_valid by (assumption || lia). cbn [analyses].
  rewrite app_nil_r, <- map_app. f_equal.
  replace (Z.to_nat ((Z.of_nat (1 + n) - 1) * l)) with (n * Z.to_nat l)%nat by nia.
  replace (S n * Z.to_nat l)%nat with (n * Z.to_nat l + Z.to_nat l)%nat by lia.
  symmetry. apply firstn_plus.
Qed.

End ListingFacts.

(** X10: for a page number of at least 1 and a limit of at least 1, when the
    database answers, a listing echoes the page, reports as total the
    number of matching documents, and returns min(limit, total - (page - 1)
    * limit) rows, never a negative number; the page is non-empty exactly
    when it is at most [totalPages]. *)
Theorem page_size :
  forall (srv : Service.Server) (matching : list (string * Store.Analysis))
         (p l : Z),
    Service.answer srv = Store.DbOk -> 1 <= p -> 1 <= l ->
    exists r,
      Service.paginate srv matching (Service.mkPagination (Some p) (Some l))
      = inr r /\
      Service.page r = p /\
      Service.total r = Z.of_nat (length matching) /\
      Z.of_nat (length (Service.analyses r))
      = Z.min l (Z.max 0 (Service.total r - (p - 1) * l)) /\
      (Service.analyses r <> [] <-> p <= Service.totalPages r).
Proof.
  intros srv matching p l Hdb Hp Hl.
  eexists. split; [apply paginate_valid; assumption|].
  cbn [Service.page Service.total Service.analyses Service.totalPages].
  split; [reflexivity|]. split; [reflexivity|].
  assert (Z.of_nat (length (map Service.project
            (firstn (Z.to_nat l) (skipn (Z.to_nat ((p - 1) * l)) matching))))
          = Z.min l (Z.max 0 (Z.of_nat (length matching) - (p - 1) * l))) as Hlen.
  { rewrite length_map, length_take, length_drop. nia. }
  split; [exact Hlen|].
  destruct (ceil_div_bounds (Z.of_nat (length matching)) l ltac:(lia) Hl)
    as [Hc0 [Hc1 Hc2]].
  set (tp := Service.ceil_div (Z.of_nat (length matching)) l) in *.
  split.
  - intros Hne.
    destruct (map Service.project _) as [|x xs] eqn:E; [congruence|].
    cbn [length] in Hlen. nia.
  - intros Hle Hnil. rewrite Hnil in Hlen. cbn [length] in Hlen. nia.
Qed.

Lemma page_size_witness :
  exists r,
    Service.paginate (Service.mkServer Store.DbOk "refused")
      [("a1", Store.mkAnalysis None image Store.upload None "f1" "t1"
                Store.processing None None 30 None 40);
       ("a2", Store.mkAnalysis None video Store.url None "f2" "t2"
                Store.processing None None 20 None 40);
       ("a3", Store.mkAnalysis None image Store.upload None "f3" "t3"
                Store.processing None None 10 None 40)]
      (Service.mkPagination (Some 2) (Some 2)) = inr r /\
    Z.of_nat (length (Service.analyses r)) = 1 /\
    Service.totalPages r = 2.
Proof.
  destruct (page_size (Service.mkServer Store.DbOk "refused")
      [("a1", Store.mkAnalysis None image Store.upload None "f1" "t1"
                Store.processing None None 30 None 40);
       ("a2", Store.mkAnalysis None video Store.url None "f2" "t2"
                Store.processing None None 20 None 40);
       ("a3", Store.mkAnalysis None image Store.upload None "f3" "t3"
                Store.processing None None 10 None 40)] 2 2 eq_refl)
    as (r & Hr & _ & Ht & Hlen & _); [lia | lia |].
  exists r. split; [exact Hr|].
  split.
  - rewrite Hlen, Ht. reflexivity.
  - vm_compute in Hr. injection Hr as <-. reflexivity.
Defined.

(** X11: for a limit of at least 1, [totalPages] is the least number of
    pages that holds all matching documents: it is not negative,
    [totalPages * limit] is at least the total and less than the total plus
    one more page, so that no documents give 0 pages. *)
Theorem total_pages_least :
  forall (srv : Service.Server) (matching : list (string * Store.Analysis))
         (p : option Z) (l : Z) (r : Service.PaginatedResult),
    1 <= l ->
    Service.paginate srv matching (Service.mkPagination p (Some l)) = inr r ->
    0 <= Service.totalPages r /\
    Service.total r <= Service.totalPages r * l < Service.total r + l.
Proof.
  intros srv matching p l r Hl. unfold Service.paginate.
  cbn [Service.pg_limit]. rewrite or_number_nonzero by lia.
  destruct (Service.answer srv); [|discriminate].
  destruct (_ <? 0); [discriminate|].
  intros [= <-]. cbn [Service.totalPages Service.total].
  destruct (ceil_div_bounds (Z.of_nat (length matching)) l ltac:(lia) Hl)
    as [Hc0 [Hc1 Hc2]].
  split; [exact Hc0|]. split; [exact Hc1 | exact Hc2].
Qed.

Lemma total_pages_least_witness :
  exists r,
    Service.paginate (Service.mkServer Store.DbOk "refused") []
      (Service.mkPagination None (Some 10)) = inr r /\
    Service.totalPages r = 0.
Proof.
  eexists. split; [reflexivity|].
  destruct (total_pages_least (Service.mkServer Store.DbOk "refused") []
              None 10 _ ltac:(lia) eq_refl) as (H0 & H1 & H2).
  cbn [Service.total Service.totalPages length Z.of_nat] in *. lia.
Defined.

(** X12: for a limit of at least 1, when the database answers, the pages 1
    to [totalPages] put one after the other are the whole listing: every
    matching document appears exactly once, in the order of the sort. *)
Theorem pages_cover_listing :
  forall (srv : Service.Server) (matching : list (string * Store.Analysis))
         (l : Z),
    Service.answer srv = Store.DbOk -> 1 <= l ->
    Service.pages_upto srv matching l
      (Z.to_nat (Service.ceil_div (Z.of_nat (length matching)) l))
    = map Service.project matching.
Proof.
  intros srv matching l Hdb Hl.
  rewrite pages_upto_firstn by assumption.
  destruct (ceil_div_bounds (Z.of_nat (length matching)) l ltac:(lia) Hl)
    as [Hc0 [Hc1 _]].
  rewrite firstn_all2; [reflexivity|]. nia.
Qed.

Lemma pages_cover_listing_witness :
  map Service.row_id (Service.pages_upto up four_docs 3 2)
  = ["d4"; "d3"; "d2"; "d1"].
Proof.
  pose proof (pages_cover_listing up four_docs 3 eq_refl) as H.
  change (Z.to_nat (Service.ceil_div (Z.of_nat (length four_docs)) 3))
    with 2%nat in H.
  rewrite H by lia. reflexivity.
Defined.

(** X13: a listing by user returns only rows of documents whose [userId] is
    that user, whatever the page and limit, and reports as total the number
    of that user's documents; documents without a [userId] never appear. *)
Theorem user_listing_is_filtered :
  forall (srv : Service.Server) (sorted : list (string * Store.Analysis))
         (uid : string) (params : Service.PaginationParams)
         (r : Service.PaginatedResult),
    Service.findAnalysesByUserId srv sorted uid params = inr r ->
    Service.total r
    = Z.of_nat (length (List.filter (Service.owned_by uid) sorted)) /\
    Forall (fun row =>
              exists d, In d sorted /\
                        Store.userId (snd d) = Some uid /\
                        row = Service.project d)
           (Service.analyses r).
Proof.
  intros srv sorted uid params r.
  unfold Service.findAnalysesByUserId, Service.paginate.
  destruct (Service.answer srv); [|discriminate].
  destruct (_ <? 0); [discriminate|].
  intros [= <-]. cbn [Service.total Service.analyses].
  split; [reflexivity|].
  apply Forall_forall. intros row Hin. apply list_elem_of_In in Hin.
  apply in_map_iff in Hin. destruct Hin as (d & <- & Hd).
  apply In_skip_limit in Hd. apply filter_In in Hd. destruct Hd as [Hd Ho].
  exists d. split; [exact Hd|]. split; [|reflexivity].
  unfold Service.owned_by in Ho.
  destruct (Store.userId (snd d)) as [u|]; [|discriminate].
  apply String.eqb_eq in Ho. congruence.
Qed.

Lemma user_listing_is_filtered_witness :
  exists r,
    Service.findAnalysesByUserId up four_docs "u1"
      (Service.mkPagination None None) = inr r /\
    Service.total r = 2 /\
    map Service.row_id (Service.analyses r) = ["d4"; "d2"].
Proof.
  eexists. split; [reflexivity|].
  destruct (user_listing_is_filtered up four_docs "u1"
              (Service.mkPagination None None) _ eq_refl) as [Ht _].
  split; [exact Ht | reflexivity].
Defined.

(** X14: the statistics add up: the counts of the three statuses sum to
    [total]; the count of a status is the number of matching documents with
    that status; and [byStatus] has a key for a status exactly when at least
    one matching document has it. An empty [userId] matches every
    document, like a missing one. *)
Theorem stats_add_up :
  forall (db : Store.DbOutcome) (all : list (string * Store.Analysis))
         (uid : option string) (st : Service.Stats),
    Service.getAnalysisStats db all uid = inr st ->
    Service.stats_total st
    = Service.bucket st Store.processing + Service.bucket st Store.completed
      + Service.bucket st Store.failed /\
    (forall s, Service.bucket st s
               = Service.count_status s (Service.stats_query uid all)) /\
    (forall s, Service.byStatus st !! Store.status_name s = None <->
               Service.count_status s (Service.stats_query uid all) = 0) /\
    Service.getAnalysisStats db all (Some "") = Service.getAnalysisStats db all None.
Proof.
  intros db all uid st. unfold Service.getAnalysisStats.
  destruct db; [|discriminate]. intros [= <-].
  set (m := Service.stats_query uid all).
  assert (forall s,
    (Service.add_group Store.processing (Service.count_status Store.processing m)
       (Service.add_group Store.completed (Service.count_status Store.completed m)
          (Service.add_group Store.failed (Service.count_status Store.failed m) ∅)))
      !! Store.status_name s
    = if Service.count_status s m =? 0 then None
      else Some (Service.count_status s m)) as Hlook.
  { intros s. rewrite !lookup_add_group, lookup_empty.
    destruct s; cbn [Service.status_eqb andb];
      repeat match goal with
             | |- context [?n =? 0] => destruct (n =? 0); cbn [negb andb]
             end; reflexivity. }
  assert (forall s, Service.bucket
            {| Service.stats_total := Z.of_nat (length m);
               Service.byStatus :=
                 Service.add_group Store.processing (Service.count_status Store.processing m)
                   (Service.add_group Store.completed (Service.count_status Store.completed m)
                      (Service.add_group Store.failed (Service.count_status Store.failed m) ∅)) |} s
          = Service.count_status s m) as Hb.
  { intros s. unfold Service.bucket. cbn [Service.byStatus]. rewrite Hlook.
    destruct (Z.eqb_spec (Service.count_status s m) 0) as [->|]; reflexivity. }
  split; [rewrite !Hb; cbn [Service.stats_total]; symmetry; apply count_status_sum|].
  split; [exact Hb|].
  split; [|reflexivity].
  intros s. cbn [Service.byStatus]. rewrite Hlook.
  destruct (Z.eqb_spec (Service.count_status s m) 0); split; congruence.
Qed.

Lemma stats_add_up_witness :
  exists st,
    Service.getAnalysisStats Store.DbOk four_docs None = inr st /\
    Service.stats_total st = 4 /\
    Service.bucket st Store.completed = 2.
Proof.
  eexists. split; [reflexivity|].
  destruct (stats_add_up Store.DbOk four_docs None _ eq_refl) as (Ht & Hb & _).
  split; [reflexivity|]. rewrite Hb. reflexivity.
Defined.

(** X15: GET /api/history answers 400 exactly when, after the defaults
    (page 1, limit 10, also for 0), the page is below 1 or the limit is
    outside 1..100. Otherwise it never asks the database for a negative
    skip: an error can only come from the database being down, and a 200
    answer echoes a page of at least 1 and carries at most [limit], hence
    at most 100, rows. *)
Theorem history_validation :
  forall (srv : Service.Server) (sorted : list (string * Store.Analysis))
         (q : Service.HistoryQuery),
    let page := Service.or_number (Service.q_page q) 1 in
    let limit := Service.or_number (Service.q_limit q) 10 in
    (Service.getHistory srv sorted q = Service.HistoryInvalid <->
     page < 1 \/ limit < 1 \/ limit > 100) /\
    (forall e, Service.getHistory srv sorted q = Service.HistoryNext e ->
               exists m, Service.answer srv = Store.DbError m /\
                         e = Service.db_error "Failed to retrieve analyses" m) /\
    (forall r, Service.getHistory srv sorted q = Service.HistoryOk r ->
               Service.page r = page /\ 1 <= page /\
               Z.of_nat (length (Service.analyses r)) <= limit <= 100).
Proof.
  intros srv sorted q page limit. unfold Service.getHistory.
  fold page limit.
  destruct (Z.ltb_spec page 1) as [Hp|Hp]; cbn [orb].
  { split; [split; [lia | reflexivity]|]. split; intros ? H; discriminate H. }
  destruct (Z.ltb_spec limit 1) as [Hl|Hl]; cbn [orb].
  { split; [split; [lia | reflexivity]|]. split; intros ? H; discriminate H. }
  destruct (Z.gtb_spec limit 100) as [Hh|Hh].
  { split; [split; [lia | reflexivity]|]. split; intros ? H; discriminate H. }
  set (found := match Service.q_userId q with
                | Some u => if String.eqb u "" then _ else _
                | None => _
                end).
  assert (exists matching,
             found = Service.paginate srv matching
                       (Service.mkPagination (Some page) (Some limit))) as [mt Hf].
  { subst found. destruct (Service.q_userId q) as [u|]; [destruct (String.eqb u "")|];
      eexists; reflexivity. }
  rewrite Hf. clear Hf found.
  destruct (Service.answer srv) as [|m] eqn:Hdb.
  - rewrite (paginate_valid srv mt page limit Hdb Hp Hl).
    split; [split; [discriminate | lia]|].
    split; [intros ? H; discriminate H|].
    intros r [= <-]. cbn [Service.page Service.analyses].
    split; [reflexivity|]. split; [exact Hp|].
    rewrite length_map, length_take. lia.
  - unfold Service.paginate. rewrite Hdb.
    split; [split; [discriminate | lia]|].
    split; [|intros ? H; discriminate H].
    intros e [= <-]. eauto.
Qed.

(** A page below 1 is refused before any query is made, also when the
    database is down. *)
Example negative_page_is_refused :
  Service.getHistory (Service.mkServer (Store.DbError "down") "refused") four_docs
    (Service.mkHistoryQuery (Some (-3)) None None) = Service.HistoryInvalid.
Proof. reflexivity. Qed.

(* ===================================================================== *)
(** * Further properties of the Orchestrator *)
(* ===================================================================== *)

Section TaskFacts.
Import Errors Gateway Store Processor.

Lemma onFailure_breaker id env w e :
  breaker (world_after (onFailure id env w e)) = breaker w.
Proof. apply onFailure_shape. Qed.

Lemma startAnalysis_breaker id ct env w :
  breaker (world_after (startAnalysis id ct env w))
  = breaker_after (analyze ct (call env) (breaker w)).
Proof.
  rewrite startAnalysis_afterCall. unfold afterCall.
  destruct (outcome _) as [e|[payload|msg]];
    [apply onFailure_breaker| |apply onFailure_breaker].
  destruct (updateAnalysis _ _ _ _) as [e|[a' d']]; [apply onFailure_breaker|].
  reflexivity.
Qed.

Lemma analyze_success_counter {R} ct (c : Call R) cb d :
  outcome (analyze ct c cb) = inr d ->
  failures (breaker_after (analyze ct c cb)) = failures cb \/
  failures (breaker_after (analyze ct c cb)) = 0.
Proof.
  rewrite analyze_analyzeImage. unfold analyzeImage.
  destruct (checkCircuitBreaker (t_check c) cb) as [e0|cb1] eqn:Hc;
    simpl; [discriminate|].
  destruct (check_inr _ _ _ Hc) as (Hfl & _ & _).
  destruct (post c); simpl; try discriminate. intros _.
  rewrite <- Hfl. apply recordSuccess_failures.
Qed.

End TaskFacts.

(** X16: a task touches the breaker only through its one gateway call,
    whatever the database does, and touches the store only at its own id:
    every other record is as before, a record that was not there is not
    created, and the record's owner, source, file, thumbnail, creation and
    expiry time never change. *)
Theorem task_frame :
  forall (id : string) (ct : ContentType) (env : Processor.TaskEnv)
         (w : Processor.World),
    let r := Processor.startAnalysis id ct env w in
    Processor.breaker (Processor.world_after r)
    = Gateway.breaker_after
        (Gateway.analyze ct (Processor.call env) (Processor.breaker w)) /\
    (forall id', id' <> id ->
       Processor.docs (Processor.world_after r) !! id' = Processor.docs w !! id') /\
    (Processor.docs w !! id = None ->
     Processor.docs (Processor.world_after r) !! id = None) /\
    (forall a a',
       Processor.docs w !! id = Some a ->
       Processor.docs (Processor.world_after r) !! id = Some a' ->
       Store.userId a' = Store.userId a /\
       Store.contentType a' = Store.contentType a /\
       Store.sourceType a' = Store.sourceType a /\
       Store.sourceUrl a' = Store.sourceUrl a /\
       Store.filePath a' = Store.filePath a /\
       Store.thumbnail a' = Store.thumbnail a /\
       Store.createdAt a' = Store.createdAt a /\
       Store.expiresAt a' = Store.expiresAt a).
Proof.
  intros id ct env w r. subst r.
  split; [apply startAnalysis_breaker|].
  destruct (startAnalysis_shape id ct env w)
    as [[_ Hd] | (a0 & u & Hl & _ & Hd & _)]; rewrite Hd.
  - split; [reflexivity|]. split; [auto|].
    intros a a' H1 H2. rewrite H1 in H2. injection H2 as <-. repeat split.
  - split; [intros id' Hne; apply lookup_insert_ne; congruence|].
    split; [congruence|].
    intros a a' H1 H2. rewrite lookup_insert_eq in H2. injection H2 as <-.
    rewrite Hl in H1. injection H1 as <-. repeat split.
Qed.

(** X17: when the engine answers but the write of the result fails (the
    database is down for that write, or a validator refuses the result), and
    the second write succeeds, the Submission is persisted as failed with
    the error "Failed to update analysis" and its result field as it was,
    while the breaker has recorded the call as a success. *)
Theorem lost_result_is_persisted_as_failed :
  forall (id : string) (ct : ContentType) (env : Processor.TaskEnv)
         (w : Processor.World) (a : Store.Analysis)
         (payload : Processor.EnginePayload) (m : string),
    Processor.docs w !! id = Some a ->
    Gateway.outcome (Gateway.analyze ct (Processor.call env) (Processor.breaker w))
    = inr (Processor.Object payload) ->
    Processor.db_try env = Store.DbError m ->
    Processor.db_catch env = Store.DbOk ->
    let r := Processor.startAnalysis id ct env w in
    exists a',
      Processor.docs (Processor.world_after r) !! id = Some a' /\
      Store.status a' = Store.failed /\
      Store.error a' = Some "Failed to update analysis" /\
      Store.result a' = Store.result a /\
      Store.completedAt a' = Some (Processor.t_catch env) /\
      (Gateway.failures (Processor.breaker (Processor.world_after r))
       = Gateway.failures (Processor.breaker w) \/
       Gateway.failures (Processor.breaker (Processor.world_after r)) = 0).
Proof.
  intros id ct env w a payload m Hl Ho Htry Hcatch r. subst r.
  assert (Processor.caught id ct env w
          = Some (Processor.ThrownCustom
                    (Errors.mkCustomError "Failed to update analysis" 500
                       "DATABASE_ERROR" (Errors.ErrorOf m)))) as Hc.
  { unfold Processor.caught. rewrite Ho, Htry. reflexivity. }
  pose proof (analyze_success_counter ct _ _ _ Ho) as Hcnt.
  rewrite <- (startAnalysis_breaker id ct env w) in Hcnt.
  revert Hcnt. rewrite (startAnalysis_caught _ _ _ _ _ Hc).
  unfold Processor.onFailure. rewrite Hcatch. cbn [Processor.docs].
  rewrite (updateAnalysis_ok _ _ _ _ Hl). cbn. intros Hcnt.
  eexists. split; [apply lookup_insert_eq|]. cbn.
  repeat (split; [reflexivity|]). exact Hcnt.
Qed.

Lemma lost_result_is_persisted_as_failed_witness :
  let env := Processor.mkTaskEnv
               (Gateway.mkCall 1000 1900 (Gateway.Responded (Processor.Object good_payload)))
               (Store.DbError "Validation failed") Store.DbOk 2000 2001 in
  let r := Processor.startAnalysis "a1" image env fresh_world in
  exists a',
    Processor.docs (Processor.world_after r) !! "a1" = Some a' /\
    Store.status a' = Store.failed /\
    Store.error a' = Some "Failed to update analysis" /\
    Gateway.failures (Processor.breaker (Processor.world_after r)) = 0.
Proof.
  destruct (lost_result_is_persisted_as_failed "a1" image
              (Processor.mkTaskEnv
                 (Gateway.mkCall 1000 1900 (Gateway.Responded (Processor.Object good_payload)))
                 (Store.DbError "Validation failed") Store.DbOk 2000 2001)
              fresh_world
              (Store.mkAnalysis None image Store.upload None "uploads/cat.jpg" "thumb"
                 Store.processing None None 0 None 2592000000)
              good_payload "Validation failed" eq_refl eq_refl eq_refl eq_refl)
    as (a' & Hl & Hs & He & _ & _ & _).
  exists a'. split; [exact Hl|]. split; [exact Hs|]. split; [exact He | reflexivity].
Defined.

(** X18: a task whose record is not in the store (deleted in the meantime,
    say) writes nothing and leaves the store as it was; the error leaves the
    task, and when the database answers it is the 404 NOT_FOUND of the
    update. *)
Theorem task_on_missing_record :
  forall (id : string) (ct : ContentType) (env : Processor.TaskEnv)
         (w : Processor.World),
    Processor.docs w !! id = None ->
    let r := Processor.startAnalysis id ct env w in
    Processor.writes r = [] /\
    Processor.docs (Processor.world_after r) = Processor.docs w /\
    exists e,
      Processor.escaped r = Some e /\
      (Processor.db_catch env = Store.DbOk ->
       Errors.statusCode e = 404 /\ Errors.code e = "NOT_FOUND").
Proof.
  intros id ct env w Hl r. subst r.
  assert (forall w1 e, Processor.docs w1 = Processor.docs w ->
            Processor.writes (Processor.onFailure id env w1 e) = [] /\
            Processor.docs (Processor.world_after (Processor.onFailure id env w1 e))
            = Processor.docs w /\
            exists e',
              Processor.escaped (Processor.onFailure id env w1 e) = Some e' /\
              (Processor.db_catch env = Store.DbOk ->
               Errors.statusCode e' = 404 /\ Errors.code e' = "NOT_FOUND")) as Hfail.
  { intros w1 e Hd. unfold Processor.onFailure, Store.updateAnalysis.
    rewrite Hd, Hl. destruct (Processor.db_catch env); cbn.
    - split; [reflexivity|]. split; [exact Hd|].
      eexists. split; [reflexivity|]. intros _. split; reflexivity.
    - split; [reflexivity|]. split; [exact Hd|].
      eexists. split; [reflexivity|]. discriminate. }
  rewrite startAnalysis_afterCall. unfold Processor.afterCall.
  destruct (Gateway.outcome _) as [e|[payload|msg]];
    [apply Hfail; reflexivity| |apply Hfail; reflexivity].
  destruct (Store.updateAnalysis _ _ _ _) as [e|[a' d']] eqn:Hu;
    [apply Hfail; reflexivity|].
  destruct (updateAnalysis_found _ _ _ _ _ _ Hu) as (a & Hl' & _).
  cbn [Processor.docs] in Hl'. congruence.
Qed.

Lemma task_on_missing_record_witness :
  let r := Processor.startAnalysis "gone" video
             (env_with (Gateway.Responded (Processor.Object good_payload))) fresh_world in
  Processor.writes r = [] /\
  Processor.docs (Processor.world_after r) = Processor.docs fresh_world.
Proof.
  destruct (task_on_missing_record "gone" video
              (env_with (Gateway.Responded (Processor.Object good_payload))) fresh_world eq_refl)
    as (Hw & Hd & _).
  split; [exact Hw | exact Hd].
Defined.

(** X19: for a video whose engine answer is stored, the stored
    [realProbability] is the engine's [truthScore] (the engine's own
    [realProbability] is not used), [predictedSource] is never empty or
    missing (it falls back to Unknown), no heatmap is stored, and
    [aiGeneratedProbability] is the engine's value when that is truthy and
    otherwise 100 minus the truth score: an engine value of 0 is replaced
    like a missing one. *)
Theorem video_result_is_normalised :
  forall (id : string) (env : Processor.TaskEnv) (w : Processor.World)
         (a : Store.Analysis) (payload : Processor.EnginePayload),
    Processor.docs w !! id = Some a ->
    Gateway.outcome (Gateway.analyze video (Processor.call env) (Processor.breaker w))
    = inr (Processor.Object payload) ->
    Processor.db_try env = Store.DbOk ->
    let r := Processor.startAnalysis id video env w in
    exists a' res,
      Processor.docs (Processor.world_after r) !! id = Some a' /\
      Store.status a' = Store.completed /\
      Store.result a' = Some res /\
      Store.truthScore res = Processor.e_truthScore payload /\
      Store.realProbability res = Processor.e_truthScore payload /\
      Store.truthy (Store.predictedSource res) = true /\
      Store.manipulationHeatmap res = Store.JUndefined /\
      Store.videoTimeline res = Processor.e_frameAnalyses payload /\
      (Store.truthy (Processor.e_aiGeneratedProbability payload) = true ->
       Store.aiGeneratedProbability res = Processor.e_aiGeneratedProbability payload) /\
      (Store.truthy (Processor.e_aiGeneratedProbability payload) = false ->
       forall t, Processor.e_truthScore payload = Store.JNum t ->
                 Store.aiGeneratedProbability res = Store.JNum (100 - t)).
Proof.
  intros id env w a payload Hl Ho Hdb r. subst r.
  unfold Processor.startAnalysis, Processor.processVideoAnalysis, Processor.afterCall.
  change (Gateway.analyzeVideo (Processor.call env) (Processor.breaker w))
    with (Gateway.analyze video (Processor.call env) (Processor.breaker w)).
  rewrite Ho, Hdb. cbn [Processor.docs].
  rewrite (updateAnalysis_ok _ _ _ _ Hl). cbn.
  eexists. eexists. split; [apply lookup_insert_eq|]. cbn.
  repeat (split; [reflexivity|]).
  unfold Processor.videoResult.
  cbn [Store.predictedSource Store.manipulationHeatmap Store.videoTimeline
       Store.aiGeneratedProbability].
  split.
  { unfold Store.js_or.
    destruct (Store.truthy (Processor.e_predictedSource payload)) eqn:E;
      [exact E | reflexivity]. }
  split; [reflexivity|]. split; [reflexivity|].
  unfold Store.js_or. split.
  - intros ->. reflexivity.
  - intros -> t ->. reflexivity.
Qed.

Lemma video_result_is_normalised_witness :
  let payload := Processor.mkPayload (Store.JNum 60) (Store.JNum 0) (Store.JNum 99)
                   (Store.JObj "{}") Store.JUndefined (Store.JObj "{}")
                   Store.JUndefined (Store.JNum 4200) (Store.JObj "[]") in
  let r := Processor.startAnalysis "a1" video
             (env_with (Gateway.Responded (Processor.Object payload))) fresh_world in
  exists a' res,
    Processor.docs (Processor.world_after r) !! "a1" = Some a' /\
    Store.result a' = Some res /\
    Store.realProbability res = Store.JNum 60 /\
    Store.aiGeneratedProbability res = Store.JNum (100 - 60) /\
    Store.predictedSource res = Store.JStr "Unknown".
Proof.
  destruct (video_result_is_normalised "a1"
              (env_with (Gateway.Responded (Processor.Object
                 (Processor.mkPayload (Store.JNum 60) (Store.JNum 0) (Store.JNum 99)
                    (Store.JObj "{}") Store.JUndefined (Store.JObj "{}")
                    Store.JUndefined (Store.JNum 4200) (Store.JObj "[]")))))
              fresh_world
              (Store.mkAnalysis None image Store.upload None "uploads/cat.jpg" "thumb"
                 Store.processing None None 0 None 2592000000)
              _ eq_refl eq_refl eq_refl)
    as (a' & res & Hl & _ & Hr & _ & Hreal & _ & _ & _ & _ & Hai).
  exists a', res. split; [exact Hl|]. split; [exact Hr|].
  split; [exact Hreal|]. split; [exact (Hai eq_refl 60%Q eq_refl)|].
  cbv zeta in Hl. vm_compute in Hl. injection Hl as <-.
  injection Hr as <-. reflexivity.
Defined.

(* ===================================================================== *)
(** * Properties of the intake *)
(* ===================================================================== *)

Section UploadFacts.
Import Errors Store Upload.

Lemma includes_In types mime : includes types mime = true <-> In mime types.
Proof.
  unfold includes. rewrite existsb_exists. split.
  - intros (x & Hx & He). apply String.eqb_eq in He. subst. exact Hx.
  - intros H. exists mime. split; [exact H | apply String.eqb_refl].
Qed.

Lemma validateFile_unfold type lim det size :
  validateFile type lim det size
  = match validateFileSize lim size type with
    | Some e => inl e
    | None =>
        match validateFileSignature det type with
        | inl err =>
            inl (mkValidationError
                   (or_text err (match type with
                                 | image => "Invalid image file"
                                 | video => "Invalid video file"
                                 end))
                   400 "INVALID_FILE_TYPE" (AllowedTypes (allowed_types type)))
        | inr mime => inr mime
        end
    end.
Proof. destruct type; reflexivity. Qed.

Lemma flush_safe n : Forall (fun c => safe_unit c = true) (flush n).
Proof. destruct n as [|[|n]]; repeat constructor. Qed.

Lemma collapse_dots_safe s : forall n,
  Forall (fun c => safe_unit c = true) s ->
  Forall (fun c => safe_unit c = true) (collapse_dots n s).
Proof.
  induction s as [|c s IH]; intros n Hs; cbn [collapse_dots].
  - apply flush_safe.
  - inversion Hs; subst. destruct (c =? DOT); [apply IH; assumption|].
    apply Forall_app. split; [apply flush_safe|].
    constructor; [assumption | apply IH; assumption].
Qed.

Lemma replace_unsafe_safe s :
  Forall (fun c => safe_unit c = true) (replace_unsafe s).
Proof.
  unfold replace_unsafe. induction s as [|c s IH]; cbn [map]; constructor.
  - destruct (safe_unit c) eqn:E; [exact E | reflexivity].
  - exact IH.
Qed.

Lemma replace_unsafe_id s :
  Forall (fun c => safe_unit c = true) s -> replace_unsafe s = s.
Proof.
  unfold replace_unsafe. induction 1 as [|c s Hc _ IH]; cbn [map]; [reflexivity|].
  rewrite Hc, IH. reflexivity.
Qed.

Lemma no_double_dot_cons c s :
  c <> DOT -> no_double_dot s = true -> no_double_dot (c :: s) = true.
Proof.
  intros Hc Hs. cbn [no_double_dot]. destruct s as [|d s]; [reflexivity|].
  change (no_double_dot (c :: d :: s))
    with (negb ((c =? DOT) && (d =? DOT)) && no_double_dot (d :: s)).
  rewrite Hs. destruct (Z.eqb_spec c DOT); [contradiction | reflexivity].
Qed.

Lemma no_double_dot_flush n c s :
  c <> DOT -> no_double_dot s = true ->
  no_double_dot (flush n ++ c :: s) = true.
Proof.
  intros Hc Hs. pose proof (no_double_dot_cons c s Hc Hs) as H.
  destruct n as [|[|n]]; cbn [flush app]; [exact H| |].
  - change (no_double_dot (DOT :: c :: s))
      with (negb ((DOT =? DOT) && (c =? DOT)) && no_double_dot (c :: s)).
    rewrite H. destruct (Z.eqb_spec c DOT); [contradiction | reflexivity].
  - apply no_double_dot_cons; [discriminate | exact H].
Qed.

Lemma collapse_dots_no_double s : forall n,
  no_double_dot (collapse_dots n s) = true.
Proof.
  induction s as [|c s IH]; intros n; cbn [collapse_dots].
  - destruct n as [|[|n]]; reflexivity.
  - destruct (Z.eqb_spec c DOT) as [->|Hc]; [apply IH|].
    apply no_double_dot_flush; [exact Hc | apply IH].
Qed.

Lemma no_double_dot_firstn s : forall k,
  no_double_dot s = true -> no_double_dot (firstn k s) = true.
Proof.
  induction s as [|c s IH]; intros k Hs.
  - rewrite firstn_nil. reflexivity.
  - destruct k as [|k]; [reflexivity|]. cbn [firstn].
    destruct s as [|d s]; [destruct k; reflexivity|].
    cbn [no_double_dot] in Hs. apply andb_true_iff in Hs. destruct Hs as [H1 H2].
    specialize (IH k H2).
    destruct k as [|k]; [reflexivity|].
    cbn [firstn] in *. cbn [no_double_dot]. rewrite H1. exact IH.
Qed.

Lemma collapse_dots_id s :
  no_double_dot s = true ->
  collapse_dots 0 s = s /\
  (match s with [] => True | d :: _ => d <> DOT end ->
   collapse_dots 1 s = DOT :: s).
Proof.
  induction s as [|c s IH]; intros Hs; [split; reflexivity|].
  assert (no_double_dot s = true /\
          (c = DOT -> match s with [] => True | d :: _ => d <> DOT end)) as [Hs' Hhd].
  { cbn [no_double_dot] in Hs. destruct s as [|d s]; [split; [reflexivity | auto]|].
    apply andb_true_iff in Hs. destruct Hs as [H1 H2]. split; [exact H2|].
    intros ->. destruct (Z.eqb_spec d DOT) as [->|]; [discriminate H1 | assumption]. }
  destruct (IH Hs') as [IH0 IH1]. cbn [collapse_dots].
  destruct (Z.eqb_spec c DOT) as [Hc|Hc].
  - split; [|intros Hn; contradiction].
    rewrite IH1 by (apply Hhd; exact Hc). rewrite Hc. reflexivity.
  - cbn [flush app]. rewrite IH0. split; reflexivity.
Qed.

Lemma accepted_file_aux type lim det size mime :
  validateFile type lim det size = inr mime -> In mime (allowed_types type).
Proof.
  rewrite validateFile_unfold. unfold validateFileSize, validateFileSignature.
  destruct (exceeds size (limit_for lim type)); [discriminate|].
  destruct det as [m| |]; try discriminate.
  destruct (includes (allowed_types type) m) eqn:Hi; [|discriminate].
  intros [= <-]. apply includes_In. exact Hi.
Qed.

(** The record an accepted upload creates. *)
Lemma upload_accepted_shape type seconds lim env file docs files acc :
  up_answer (upload type seconds lim env file docs files) = inr acc ->
  exists f a,
    file = Some f /\
    createAnalysis DbOk (u_id env) (u_now env) (u_shift env)
      (mkCreateParams None type Store.upload None (f_path f) (u_thumbnail env))
      docs = inr (a, up_docs (upload type seconds lim env file docs files)) /\
    acc_analysisId acc = u_id env.
Proof.
  unfold upload. destruct file as [f|]; [|discriminate].
  destruct (u_readable env); cbn [negb]; [|discriminate].
  destruct (validateFile type lim (u_detected env) (f_size f)); [discriminate|].
  destruct (u_db env); [|discriminate].
  cbn. intros [= <-]. eexists. eexists. split; [reflexivity|].
  split; reflexivity.
Qed.

Lemma round_mb_close size :
  - 524288 <= size - round_mb size * 1048576 < 524288.
Proof.
  unfold round_mb.
  pose proof (Z.div_mod (2 * size + 1048576) 2097152 ltac:(lia)) as Hdm.
  pose proof (Z.mod_pos_bound (2 * size + 1048576) 2097152 ltac:(lia)) as Hm.
  lia.
Qed.

End UploadFacts.

(** X20: a file is accepted exactly when its size is not over the limit of
    its kind and the detected MIME type is one of the three allowed for that
    kind; the type returned is the detected one. A size equal to the limit
    passes, and with a limit that does not parse as a number no size is too
    large. *)
Theorem accepted_file_is_allowed :
  forall (type : ContentType) (lim : Upload.Limits) (det : Upload.Detection)
         (size : Z) (mime : string),
    Upload.validateFile type lim det size = inr mime <->
    Upload.exceeds size (Upload.limit_for lim type) = false /\
    det = Upload.Detected mime /\
    In mime (Upload.allowed_types type).
Proof.
  intros type lim det size mime. rewrite validateFile_unfold.
  unfold Upload.validateFileSize, Upload.validateFileSignature.
  destruct (Upload.exceeds size (Upload.limit_for lim type)).
  { split; [discriminate | intros [H _]; discriminate]. }
  destruct det as [m| |].
  - destruct (Upload.includes (Upload.allowed_types type) m) eqn:Hi.
    + apply includes_In in Hi. split.
      * intros [= <-]. auto.
      * intros (_ & [= <-] & _). reflexivity.
    + split; [discriminate|]. intros (_ & [= <-] & Hin).
      apply includes_In in Hin. congruence.
  - split; [discriminate | intros (_ & H & _); discriminate].
  - split; [discriminate | intros (_ & H & _); discriminate].
Qed.

(** A JPEG of exactly 10 MB passes the default limit; one byte more does
    not. *)
Example size_limit_boundary :
  Upload.validateImageFile Upload.default_limits (Upload.Detected "image/jpeg")
    (10 * 1024 * 1024) = inr "image/jpeg" /\
  exists e,
    Upload.validateImageFile Upload.default_limits (Upload.Detected "image/jpeg")
      (10 * 1024 * 1024 + 1) = inl e /\
    Upload.ve_code e = "FILE_TOO_LARGE" /\
    Upload.ve_message e = "File size exceeds 10MB limit".
Proof. split; [reflexivity|]. eexists. repeat split. Qed.

(** X21: the size is checked before the type: a file over the limit of its
    kind is refused with 400 FILE_TOO_LARGE whatever the type detection
    says, and the [actualSize] it reports is the size in MB rounded to the
    nearest integer (at most half a MB off). Every other refusal is 400
    INVALID_FILE_TYPE with a non-empty message. *)
Theorem oversize_is_refused_first :
  forall (type : ContentType) (lim : Upload.Limits) (det : Upload.Detection)
         (size : Z) (e : Upload.ValidationError),
    Upload.validateFile type lim det size = inl e ->
    Upload.ve_statusCode e = 400 /\
    ((Upload.exceeds size (Upload.limit_for lim type) = true /\
      Upload.ve_code e = "FILE_TOO_LARGE" /\
      (forall det', Upload.validateFile type lim det' size = inl e) /\
      exists mb, Upload.ve_details e
                 = Upload.TooLarge (Upload.limit_text (Upload.limit_for lim type)) mb /\
                 - 524288 <= size - mb * 1048576 < 524288) \/
     (Upload.exceeds size (Upload.limit_for lim type) = false /\
      Upload.ve_code e = "INVALID_FILE_TYPE" /\
      Upload.ve_message e <> "" /\
      Upload.ve_details e = Upload.AllowedTypes (Upload.allowed_types type))).
Proof.
  intros type lim det size e. rewrite validateFile_unfold.
  unfold Upload.validateFileSize.
  destruct (Upload.exceeds size (Upload.limit_for lim type)) eqn:Hx.
  - intros [= <-]. split; [reflexivity|]. left.
    split; [reflexivity|]. split; [reflexivity|]. split.
    + intros det'. rewrite validateFile_unfold. unfold Upload.validateFileSize.
      rewrite Hx. reflexivity.
    + eexists. split; [reflexivity | apply round_mb_close].
  - destruct (Upload.validateFileSignature det type) as [err|m]; [|discriminate].
    intros [= <-]. split; [reflexivity|]. right.
    split; [reflexivity|]. split; [reflexivity|]. split; [|reflexivity].
    cbn [Upload.ve_message]. unfold Upload.or_text.
    destruct (String.eqb_spec err "") as [->|Hne]; [|exact Hne].
    destruct type; discriminate.
Qed.

Lemma oversize_is_refused_first_witness :
  exists e,
    Upload.validateFile video Upload.default_limits Upload.Undetected 157286400
    = inl e /\
    Upload.ve_code e = "FILE_TOO_LARGE" /\
    Upload.ve_details e = Upload.TooLarge "100" 150.
Proof.
  eexists. split; [reflexivity|].
  destruct (oversize_is_refused_first video Upload.default_limits
              Upload.Undetected 157286400 _ eq_refl)
    as (_ & [(_ & Hc & _ & _) | (Hx & _)]).
  - split; [exact Hc | reflexivity].
  - discriminate Hx.
Defined.

(** X22: whatever the original name, the sanitized file name has at most
    255 code units, all of them letters, digits, dot, underscore or hyphen,
    so it contains no slash, no backslash and no NUL, and never two dots in
    a row: it cannot name a parent directory or leave the upload
    directory. *)
Theorem sanitized_name_is_safe :
  forall filename : Upload.units,
    let r := Upload.sanitizeFilename filename in
    (length r <= 255)%nat /\
    Forall (fun c => Upload.safe_unit c = true) r /\
    Upload.no_double_dot r = true /\
    ~ In 47 r /\ ~ In 92 r /\ ~ In 0 r.
Proof.
  intros filename r. subst r. unfold Upload.sanitizeFilename.
  assert (Forall (fun c => Upload.safe_unit c = true)
            (firstn 255 (Upload.collapse_dots 0 (Upload.replace_unsafe filename))))
    as Hsafe.
  { apply Forall_take. apply collapse_dots_safe. apply replace_unsafe_safe. }
  split; [rewrite length_take; lia|].
  split; [exact Hsafe|].
  split; [apply no_double_dot_firstn, collapse_dots_no_double|].
  rewrite List.Forall_forall in Hsafe.
  repeat split; intros Hin; apply Hsafe in Hin; discriminate Hin.
Qed.

(** The name "../../etc/passwd" becomes "____etc_passwd". *)
Example traversal_is_defused :
  Upload.sanitizeFilename
    [46; 46; 47; 46; 46; 47; 101; 116; 99; 47; 112; 97; 115; 115; 119; 100]
  = [95; 95; 95; 95; 101; 116; 99; 95; 112; 97; 115; 115; 119; 100].
Proof. reflexivity. Qed.

(** X23: sanitizing is idempotent: a sanitized name is left as it is. *)
Theorem sanitize_idempotent :
  forall filename : Upload.units,
    Upload.sanitizeFilename (Upload.sanitizeFilename filename)
    = Upload.sanitizeFilename filename.
Proof.
  intros filename.
  assert (Forall (fun c => Upload.safe_unit c = true)
            (Upload.sanitizeFilename filename)) as Hsafe.
  { apply Forall_take. apply collapse_dots_safe. apply replace_unsafe_safe. }
  assert (Upload.no_double_dot (Upload.sanitizeFilename filename) = true) as Hdd
    by apply no_double_dot_firstn, collapse_dots_no_double.
  assert (length (Upload.sanitizeFilename filename) <= 255)%nat as Hlen
    by (unfold Upload.sanitizeFilename; rewrite length_take; lia).
  set (r := Upload.sanitizeFilename filename) in *.
  unfold Upload.sanitizeFilename at 1.
  rewrite (replace_unsafe_id r Hsafe).
  destruct (collapse_dots_id r Hdd) as [-> _].
  apply firstn_all2. exact Hlen.
Qed.

(** X24: an upload either is accepted or leaves nothing behind. When it is
    answered with 200, exactly one record was added, under the new id, with
    status processing, no result and no error, the kind and path of the
    uploaded file and source upload; its MIME type is an allowed one; the
    file is kept and the task is started for that id, path and kind. When it
    is refused, the store is unchanged, no task is started, no file is
    added, and the uploaded file is removed if it can be unlinked. *)
Theorem upload_accepts_or_cleans_up :
  forall (type : ContentType) (seconds : Z) (lim : Upload.Limits)
         (env : Upload.UploadEnv) (file : option Upload.UploadedFile)
         (docs : gmap string Store.Analysis) (files : gset string),
    let o := Upload.upload type seconds lim env file docs files in
    match Upload.up_answer o with
    | inr acc =>
        exists f a,
          file = Some f /\
          Upload.up_docs o = <[Upload.u_id env := a]> docs /\
          Store.status a = Store.processing /\
          Store.result a = None /\ Store.error a = None /\
          Store.contentType a = type /\
          Store.sourceType a = Store.upload /\
          Store.filePath a = Upload.f_path f /\
          Upload.acc_analysisId acc = Upload.u_id env /\
          Upload.acc_status acc = Store.processing /\
          Upload.acc_estimatedTime acc = seconds /\
          In (Upload.acc_mimeType acc) (Upload.allowed_types type) /\
          Upload.up_files o = files /\
          Upload.up_started o = Some (Upload.u_id env, Upload.f_path f, type)
    | inl _ =>
        Upload.up_docs o = docs /\
        Upload.up_started o = None /\
        Upload.up_files o ⊆ files /\
        (forall f, file = Some f -> Upload.f_path f <> "" ->
                   Upload.u_unlink_ok env = true ->
                   Upload.f_path f ∉ Upload.up_files o)
    end.
Proof.
  intros type seconds lim env file docs files o. subst o.
  unfold Upload.upload.
  destruct file as [f|]; cbn.
  2:{ split; [reflexivity|]. split; [reflexivity|]. split; [reflexivity|].
      intros f H. discriminate H. }
  set (kept := if String.eqb (Upload.f_path f) "" then files
               else Upload.deleteFile (Upload.u_unlink_ok env) (Upload.f_path f) files).
  assert (kept ⊆ files /\
          (Upload.f_path f <> "" -> Upload.u_unlink_ok env = true ->
           Upload.f_path f ∉ kept)) as [Hsub Hgone].
  { subst kept. unfold Upload.deleteFile.
    destruct (String.eqb_spec (Upload.f_path f) "") as [He|He].
    - split; [reflexivity | intros Hn; contradiction].
    - split.
      + destruct (Upload.u_unlink_ok env); [|reflexivity].
        intros x Hx. apply elem_of_difference in Hx. tauto.
      + intros _ Hu. rewrite Hu.
        intros Hx. apply elem_of_difference in Hx. destruct Hx as [_ Hn].
        apply Hn. apply elem_of_singleton. reflexivity. }
  assert (forall e,
    Upload.up_docs (Upload.mkUploadOutcome (inl e) docs kept None) = docs /\
    Upload.up_started (Upload.mkUploadOutcome (inl e) docs kept None) = None /\
    Upload.up_files (Upload.mkUploadOutcome (inl e) docs kept None) ⊆ files /\
    (forall f0, Some f = Some f0 -> Upload.f_path f0 <> "" ->
       Upload.u_unlink_ok env = true ->
       Upload.f_path f0 ∉ Upload.up_files
                            (Upload.mkUploadOutcome (inl e) docs kept None)))
    as Hfail.
  { intros e. cbn.
    split; [reflexivity|]. split; [reflexivity|]. split; [exact Hsub|].
    intros f0 Hf. injection Hf as Hf. subst f0. exact Hgone. }
  destruct (Upload.u_readable env); cbn [negb]; [|apply Hfail].
  destruct (Upload.validateFile type lim (Upload.u_detected env) (Upload.f_size f))
    as [e|mime] eqn:Hv; [apply Hfail|].
  apply accepted_file_aux in Hv.
  unfold Store.createAnalysis.
  destruct (Upload.u_db env); [|apply Hfail].
  cbn. eexists. eexists. split; [reflexivity|]. split; [reflexivity|].
  cbn. repeat (split; [reflexivity|]). split; [exact Hv|]. split; reflexivity.
Qed.

Lemma upload_accepts_or_cleans_up_example :
  let o := Upload.uploadImage Upload.default_limits
             (Upload.mkUploadEnv true (Upload.Detected "image/gif") "thumb"
                Store.DbOk "a2" 5 0 true)
             (Some (Upload.mkUploadedFile "uploads/x.gif" "x.gif" 1000))
             ∅ {[ "uploads/x.gif" ]} in
  Upload.up_docs o = ∅ /\ Upload.up_files o = ∅ /\ Upload.up_started o = None.
Proof.
  cbv zeta. split; [reflexivity|]. split; [|reflexivity].
  vm_compute. reflexivity.
Qed.

(** X25: from upload to polling. Once an upload is accepted under a
    non-empty id and the task it started has run, whatever the engine and
    the database answered to the task, GET /api/analysis/:id finds the
    record, of the uploaded kind and source upload, in one of three shapes:
    still processing with no result, no error and no completion time;
    completed with a result, no error and a completion time; or failed with
    an error, no result and a completion time. *)
Theorem upload_task_poll :
  forall (type : ContentType) (seconds : Z) (lim : Upload.Limits)
         (env : Upload.UploadEnv) (file : option Upload.UploadedFile)
         (docs : gmap string Store.Analysis) (files : gset string)
         (acc : Upload.Accepted) (tenv : Processor.TaskEnv)
         (cb : Gateway.CircuitBreakerState),
    let o := Upload.upload type seconds lim env file docs files in
    Upload.up_answer o = inr acc ->
    Upload.u_id env <> "" ->
    let r := Processor.startAnalysis (Upload.u_id env) type tenv
               (Processor.mkWorld cb (Upload.up_docs o)) in
    exists v,
      Service.getAnalysis Store.DbOk (Upload.acc_analysisId acc)
        (Processor.docs (Processor.world_after r)) = inr v /\
      Service.v_contentType v = type /\
      Service.v_sourceType v = Store.upload /\
      Service.v_createdAt v = Upload.u_now env /\
      ((Service.v_status v = Store.processing /\ Service.v_result v = None /\
        Service.v_error v = None /\ Service.v_completedAt v = None) \/
       (Service.v_status v = Store.completed /\ is_Some (Service.v_result v) /\
        Service.v_error v = None /\ is_Some (Service.v_completedAt v)) \/
       (Service.v_status v = Store.failed /\ Service.v_result v = None /\
        is_Some (Service.v_error v) /\ is_Some (Service.v_completedAt v))).
Proof.
  intros type seconds lim env file docs files acc tenv cb o Hacc Hid r.
  subst o r.
  destruct (upload_accepted_shape _ _ _ _ _ _ _ _ Hacc) as (f & a & -> & Hc & Hi).
  set (d1 := Upload.up_docs _) in *.
  assert (a = Store.mkAnalysis None type Store.upload None (Upload.f_path f)
                (Upload.u_thumbnail env) Store.processing None None
                (Upload.u_now env) None
                (Upload.u_now env + Store.DEFAULT_TTL_DAYS * Store.MS_PER_DAY
                 + Upload.u_shift env)) as Ha
    by (unfold Store.createAnalysis in Hc; injection Hc as <- _; reflexivity).
  destruct (createAnalysis_ok _ _ _ _ _ _ _ Hc) as (_ & _ & _ & Hl).
  rewrite Hi. unfold Service.getAnalysis.
  destruct (String.eqb_spec (Upload.u_id env) ""); [contradiction|].
  unfold Store.findAnalysisById.
  destruct (startAnalysis_shape (Upload.u_id env) type tenv (Processor.mkWorld cb d1))
    as [[_ Hd] | (a0 & u & Hl0 & _ & Hd & Hu)]; rewrite Hd.
  - cbn [Processor.docs]. rewrite Hl. eexists. split; [reflexivity|].
    rewrite Ha. cbn. repeat (split; [reflexivity|]). left. repeat split.
  - cbn [Processor.docs] in *. rewrite Hl in Hl0. injection Hl0 as <-.
    rewrite lookup_insert_eq. eexists. split; [reflexivity|].
    rewrite Ha. cbn. repeat (split; [reflexivity|]).
    destruct Hu as [[res ->] | [e ->]]; cbn; [right; left | right; right];
      repeat split; eauto.
Qed.

Lemma upload_task_poll_witness :
  let o := Upload.uploadImage Upload.default_limits
             (Upload.mkUploadEnv true (Upload.Detected "image/png") "thumb"
                Store.DbOk "a2" 5 0 true)
             (Some (Upload.mkUploadedFile "uploads/x.png" "x.png" 1000))
             ∅ {[ "uploads/x.png" ]} in
  let r := Processor.startAnalysis "a2" image
             (env_with (Gateway.Responded (Processor.Object good_payload)))
             (Processor.mkWorld Gateway.circuitBreaker (Upload.up_docs o)) in
  exists v,
    Service.getAnalysis Store.DbOk "a2" (Processor.docs (Processor.world_after r))
    = inr v /\
    Service.v_status v = Store.completed.
Proof.
  destruct (upload_task_poll image 30 Upload.default_limits
              (Upload.mkUploadEnv true (Upload.Detected "image/png") "thumb"
                 Store.DbOk "a2" 5 0 true)
              (Some (Upload.mkUploadedFile "uploads/x.png" "x.png" 1000))
              ∅ {[ "uploads/x.png" ]}
              (Upload.mkAccepted "a2" Store.processing 30 "x.png" 1000 "image/png")
              (env_with (Gateway.Responded (Processor.Object good_payload)))
              Gateway.circuitBreaker eq_refl)
    as (v & Hg & _); [discriminate|].
  exists v. split; [exact Hg|].
  cbn in Hg. vm_compute in Hg. injection Hg as <-. reflexivity.
Defined.

(** X26: while the breaker is OPEN and the cool-down runs, a submission
    fails fast: its task sends nothing to the engine, whatever the engine
    would have answered, the record is persisted as failed with the message
    "AI Engine is temporarily unavailable. Please try again later.", and
    the breaker counts one more failure, stamped with the end of the call. *)
Theorem open_breaker_fails_submission :
  forall (id : string) (ct : ContentType) (env : Processor.TaskEnv)
         (w : Processor.World) (a : Store.Analysis),
    Processor.docs w !! id = Some a ->
    Gateway.state (Processor.breaker w) = Gateway.OPEN ->
    Gateway.t_check (Processor.call env)
    - Gateway.lastFailureTime (Processor.breaker w)
    <= Gateway.CIRCUIT_BREAKER_TIMEOUT ->
    Processor.db_catch env = Store.DbOk ->
    let r := Processor.startAnalysis id ct env w in
    Gateway.contacted
      (Gateway.analyze ct (Processor.call env) (Processor.breaker w)) = false /\
    (exists a',
       Processor.docs (Processor.world_after r) !! id = Some a' /\
       Store.status a' = Store.failed /\
       Store.error a'
       = Some "AI Engine is temporarily unavailable. Please try again later.") /\
    Gateway.failures (Processor.breaker (Processor.world_after r))
    = Gateway.failures (Processor.breaker w) + 1 /\
    Gateway.lastFailureTime (Processor.breaker (Processor.world_after r))
    = Gateway.t_done (Processor.call env) /\
    Gateway.state (Processor.breaker (Processor.world_after r)) = Gateway.OPEN.
Proof.
  intros id ct env w a Hl Hs Ht Hdb r. subst r.
  destruct (analyzeImage_rejects (Processor.call env) (Processor.breaker w) Hs Ht)
    as [[Hnc _] Hb].
  rewrite <- (analyze_analyzeImage ct) in Hnc, Hb.
  split; [exact Hnc|].
  rewrite (startAnalysis_breaker id ct env w), Hb.
  split; [|split; [reflexivity | split; [reflexivity|]]].
  2:{ apply recordFailure_open. exact Hs. }
  assert (exists d,
    Processor.caught id ct env w
    = Some (Processor.ThrownCustom
              (Errors.mkCustomError
                 "AI Engine is temporarily unavailable. Please try again later."
                 503 "AI_ENGINE_UNAVAILABLE" d))) as [d Hc].
  { unfold Processor.caught. rewrite analyze_analyzeImage.
    unfold Gateway.analyzeImage, Gateway.checkCircuitBreaker. rewrite Hs.
    destruct (Z.gtb_spec (Gateway.t_check (Processor.call env)
                          - Gateway.lastFailureTime (Processor.breaker w))
                Gateway.CIRCUIT_BREAKER_TIMEOUT); [lia|].
    cbn. eexists. reflexivity. }
  rewrite (startAnalysis_caught _ _ _ _ _ Hc).
  unfold Processor.onFailure. rewrite Hdb. cbn [Processor.docs].
  rewrite (updateAnalysis_ok _ _ _ _ Hl). cbn.
  eexists. split; [apply lookup_insert_eq|]. split; reflexivity.
Qed.

Lemma open_breaker_fails_submission_witness :
  let w := Processor.mkWorld tripped (Processor.docs fresh_world) in
  let r := Processor.startAnalysis "a1" image
             (env_with (Gateway.Responded (Processor.Object good_payload))) w in
  (exists a',
     Processor.docs (Processor.world_after r) !! "a1" = Some a' /\
     Store.status a' = Store.failed) /\
  Gateway.failures (Processor.breaker (Processor.world_after r)) = 6.
Proof.
  destruct (open_breaker_fails_submission "a1" image
              (env_with (Gateway.Responded (Processor.Object good_payload)))
              (Processor.mkWorld tripped (Processor.docs fresh_world))
              (Store.mkAnalysis None image Store.upload None "uploads/cat.jpg" "thumb"
                 Store.processing None None 0 None 2592000000)
              eq_refl eq_refl)
    as (_ & (a' & Hl & Hs & _) & Hf & _).
  - vm_compute. discriminate.
  - reflexivity.
  - split; [exists a'; split; [exact Hl | exact Hs] | exact Hf].
Defined.

(* ===================================================================== *)
(** * The trial in HALF_OPEN among calls in flight *)
(* ===================================================================== *)

Section InterleavingFacts.
Import Errors Gateway Recording Interleaving.

(** A call run alone is its two steps, one after the other (one step when
    it is rejected). *)
Lemma analyze_as_steps {R} ct (c : Call R) cb :
  breaker_after (analyze ct c cb)
  = if let_through (t_check c) cb
    then run [Starts (t_check c) (t_done c); Ends (recording c)] cb
    else run [Starts (t_check c) (t_done c)] cb.
Proof.
  rewrite analyze_analyzeImage.
  unfold analyzeImage, let_through, run, recording. cbn [fold_left step].
  destruct (checkCircuitBreaker (t_check c) cb) as [e|cb1]; [reflexivity|].
  destruct (post c); reflexivity.
Qed.

(** HALF_OPEN lets every call through, not one: after the call that moved
    the breaker to HALF_OPEN, any further call passes the check. *)
Lemma half_open_lets_every_call_through cb t1 t2 :
  state cb = OPEN ->
  t1 - lastFailureTime cb > CIRCUIT_BREAKER_TIMEOUT ->
  state (step (Starts t1 t1) cb) = HALF_OPEN /\
  let_through t2 (step (Starts t1 t1) cb) = true.
Proof.
  intros Hs Ht. unfold step, let_through.
  rewrite (check_open_late t1 cb Hs Ht).
  split; [reflexivity|]. unfold checkCircuitBreaker. reflexivity.
Qed.

(** With a second call in flight the trial decides nothing. On a reachable
    OPEN breaker past its cool-down, two calls start; when the other call
    succeeds first and the trial then fails, the breaker ends CLOSED with one
    failure; when the other call fails first and the trial then succeeds, the
    breaker ends OPEN with one failure more than before. *)
Lemma trial_among_calls cb t1 t2 ta tb :
  Reachable cb -> state cb = OPEN ->
  t1 - lastFailureTime cb > CIRCUIT_BREAKER_TIMEOUT ->
  run [Starts t1 t1; Starts t2 t2; Ends (Success ta); Ends (Failure tb)] cb
  = mkBreaker 1 tb CLOSED /\
  run [Starts t1 t1; Starts t2 t2; Ends (Failure ta); Ends (Success tb)] cb
  = mkBreaker (failures cb + 1) ta OPEN.
Proof.
  intros Hr Hs Ht. destruct (reachable_inv _ Hr) as [_ H5].
  assert (CIRCUIT_BREAKER_THRESHOLD <= failures cb) as Hge
    by (apply H5; rewrite Hs; discriminate).
  unfold run. cbn [fold_left]. unfold step at 4 8.
  rewrite (check_open_late t1 cb Hs Ht).
  unfold step, checkCircuitBreaker, record, recordSuccess, recordFailure.
  cbn [state failures lastFailureTime].
  unfold CIRCUIT_BREAKER_THRESHOLD in *.
  destruct (Z.geb_spec (failures cb + 1) 5) as [_|Hlt]; [|lia].
  split; reflexivity.
Qed.

End InterleavingFacts.

(** C6 (the code at the failing input): the breaker is OPEN with five
    failures, the last at 5000. After the cool-down a call starts at 65001
    and moves the breaker to HALF_OPEN; while its request is awaited a
    second call starts at 65002 and is let through as well. If the second
    call is answered at 65010 and the first, the trial, fails at 65020, the
    breaker ends CLOSED with one failure: the failed trial has not
    reopened it. If the second call fails at 65010 and the trial is
    answered at 65020, the breaker ends OPEN with six failures: the
    successful trial has not closed it. *)
Theorem trial_is_not_single :
  let cb1 := Interleaving.step (Interleaving.Starts 65001 65001) tripped in
  Gateway.state cb1 = Gateway.HALF_OPEN /\
  Interleaving.let_through 65002 cb1 = true /\
  Interleaving.run
    [Interleaving.Starts 65001 65001; Interleaving.Starts 65002 65002;
     Interleaving.Ends (Recording.Success 65010);
     Interleaving.Ends (Recording.Failure 65020)] tripped
  = Gateway.mkBreaker 1 65020 Gateway.CLOSED /\
  Interleaving.run
    [Interleaving.Starts 65001 65001; Interleaving.Starts 65002 65002;
     Interleaving.Ends (Recording.Failure 65010);
     Interleaving.Ends (Recording.Success 65020)] tripped
  = Gateway.mkBreaker 6 65010 Gateway.OPEN.
Proof. repeat split. Qed.
